(** * mastodonlm: the list-manager request handlers (handler.py)

    A shallow embedding of [handler.py] and the properties of its
    specification.  Python values returned by the remote API are modelled by
    the type [value]; the handlers run in a state-and-exception monad over a
    [world] made of the session table, the state of everything outside the
    process (remote server, clock, random source) and a log of the effects
    performed so far. *)

From Stdlib Require Import ZArith String Ascii List Lia DecimalString.
From stdpp Require Import base option list strings gmap fin_maps.

Open Scope Z_scope.
Open Scope string_scope.
Open Scope list_scope.

(** ** Exceptions *)

(** The exception classes the handlers meet.  The [Mastodon...] classes are
    those of the Mastodon.py client library imported by handler.py. *)
Inductive exn :=
| KeyError (k : string)
| IndexError
| ValueError
| TypeError
| AttributeError
| StopIteration
| MastodonIllegalArgumentError
| MastodonNetworkError
| MastodonRatelimitError
| MastodonAPIError
| MastodonNotFoundError
| MastodonUnauthorizedError
| MastodonInternalServerError.

(** [isinstance(e, MastodonAPIError)]: in Mastodon.py the not-found,
    unauthorized and internal-server errors derive from [MastodonAPIError];
    the illegal-argument, network and rate-limit errors do not. *)
Definition is_MastodonAPIError (e : exn) : bool :=
  match e with
  | MastodonAPIError | MastodonNotFoundError
  | MastodonUnauthorizedError | MastodonInternalServerError => true
  | _ => false
  end.

Definition is_MastodonIllegalArgumentError (e : exn) : bool :=
  match e with MastodonIllegalArgumentError => true | _ => false end.

Definition is_MastodonInternalServerError (e : exn) : bool :=
  match e with MastodonInternalServerError => true | _ => false end.

Definition is_MastodonUnauthorizedError (e : exn) : bool :=
  match e with MastodonUnauthorizedError => true | _ => false end.

Definition is_AttributeError (e : exn) : bool :=
  match e with AttributeError => true | _ => false end.

(** ** Pure computations that may raise *)

Inductive result (A : Type) :=
| ok (a : A)
| err (e : exn).
Arguments ok {A} a.
Arguments err {A} e.

Definition rbind {A B} (r : result A) (f : A -> result B) : result B :=
  match r with
  | ok a => f a
  | err e => err e
  end.

(** ** The state-and-exception monad *)

(** [Diverge] is the outcome of a run whose loop budget is exhausted: it
    stands for a Python run that does not return. *)
Inductive outcome (A : Type) :=
| Ok (a : A)
| Raise (e : exn)
| Diverge.
Arguments Ok {A} a.
Arguments Raise {A} e.
Arguments Diverge {A}.

Definition M (W A : Type) : Type := W -> outcome A * W.

Definition ret {W A} (a : A) : M W A := fun w => (Ok a, w).

Definition raise {W A} (e : exn) : M W A := fun w => (Raise e, w).

Definition diverge {W A} : M W A := fun w => (Diverge, w).

Definition bind {W A B} (m : M W A) (f : A -> M W B) : M W B :=
  fun w =>
    match m w with
    | (Ok a, w') => f a w'
    | (Raise e, w') => (Raise e, w')
    | (Diverge, w') => (Diverge, w')
    end.

Definition lift {W A} (r : result A) : M W A :=
  match r with
  | ok a => ret a
  | err e => raise e
  end.

(** [try: m  except <classes>: h]: the handler [h e] is [None] when no
    [except] clause matches [e], and the exception then propagates. *)
Definition try_except {W A} (m : M W A) (h : exn -> option (M W A)) : M W A :=
  fun w =>
    match m w with
    | (Raise e, w') =>
        match h e with
        | Some k => k w'
        | None => (Raise e, w')
        end
    | r => r
    end.

Notation "'let*' x ':=' m 'in' k" := (bind m (fun x => k))
  (at level 10, x pattern, m at level 100, k at level 200).

(** ** Python values *)

(** The JSON-like data exchanged with the remote API.  A Python [str] is a
    [string] whose characters are the code points below 256; a [dict] with
    string keys keeps its insertion order. *)
#[warnings="-register-all"]
Inductive value :=
| VNone
| VBool (b : bool)
| VInt (n : Z)
| VStr (s : string)
| VList (l : list value)
| VDict (d : list (string * value)).

Definition dict := list (string * value).

Fixpoint dict_get (d : dict) (k : string) : option value :=
  match d with
  | [] => None
  | (k', v) :: d' => if String.eqb k' k then Some v else dict_get d' k
  end.

(** [d[k] = v]: an existing key keeps its position, a new one goes last. *)
Fixpoint dict_set (d : dict) (k : string) (v : value) : dict :=
  match d with
  | [] => [(k, v)]
  | (k', v') :: d' =>
      if String.eqb k' k then (k', v) :: d' else (k', v') :: dict_set d' k v
  end.

(** [v[k]] for a string subscript. *)
Definition subscript (v : value) (k : string) : result value :=
  match v with
  | VDict d =>
      match dict_get d k with
      | Some x => ok x
      | None => err (KeyError k)
      end
  | _ => err TypeError
  end.

(** [v[k] = x]. *)
Definition store_subscript (v : value) (k : string) (x : value) : result value :=
  match v with
  | VDict d => ok (VDict (dict_set d k x))
  | _ => err TypeError
  end.

(** What a value is as a dictionary key: Python compares and hashes [True]
    as [1] and [False] as [0]; lists and dicts are unhashable. *)
Inductive key :=
| KNone
| KInt (n : Z)
| KStr (s : string).

Global Instance key_eq_dec : EqDecision key.
Proof. solve_decision. Defined.

Global Instance key_countable : Countable key.
Proof.
  refine (inj_countable'
    (fun k => match k with
              | KNone => inl ()
              | KInt n => inr (inl n)
              | KStr s => inr (inr s)
              end)
    (fun x => match x with
              | inl _ => KNone
              | inr (inl n) => KInt n
              | inr (inr s) => KStr s
              end) _).
  intros []; reflexivity.
Defined.

Definition key_of (v : value) : result key :=
  match v with
  | VNone => ok KNone
  | VBool b => ok (KInt (if b then 1 else 0))
  | VInt n => ok (KInt n)
  | VStr s => ok (KStr s)
  | VList _ | VDict _ => err TypeError
  end.

(** ** Strings *)

(** [str(n)] for an [int]. *)
Definition str_int (n : Z) : string := NilZero.string_of_int (Z.to_int n).

(** [s.split(sep)] for a one-character separator. *)
Fixpoint str_split (sep : ascii) (s : string) : list string :=
  match s with
  | EmptyString => [EmptyString]
  | String c s' =>
      if Ascii.eqb c sep then EmptyString :: str_split sep s'
      else
        match str_split sep s' with
        | [] => [String c EmptyString]
        | x :: xs => String c x :: xs
        end
  end.

(** [s[-n:]]. *)
Definition last_chars (n : nat) (s : string) : string :=
  String.substring (String.length s - n) n s.

(** ** [json.dumps] with its default options *)

Definition dq : string := String (ascii_of_nat 34) EmptyString.
Definition backslash : string := String (ascii_of_nat 92) EmptyString.

Definition hex_digit (n : nat) : ascii :=
  if (n <? 10)%nat then ascii_of_nat (48 + n) else ascii_of_nat (87 + n).

Definition json_escape_char (c : ascii) : string :=
  let n := nat_of_ascii c in
  if (n =? 34)%nat then backslash +:+ dq
  else if (n =? 92)%nat then backslash +:+ backslash
  else if (n =? 10)%nat then backslash +:+ "n"
  else if (n =? 13)%nat then backslash +:+ "r"
  else if (n =? 9)%nat then backslash +:+ "t"
  else if (n =? 12)%nat then backslash +:+ "f"
  else if (n =? 8)%nat then backslash +:+ "b"
  else if ((n <? 32) || (126 <? n))%nat then
    backslash +:+ "u00" +:+
      String (hex_digit (n / 16)) (String (hex_digit (n mod 16)) EmptyString)
  else String c EmptyString.

Fixpoint json_escape (s : string) : string :=
  match s with
  | EmptyString => EmptyString
  | String c s' => json_escape_char c +:+ json_escape s'
  end.

Definition json_string (s : string) : string := dq +:+ json_escape s +:+ dq.

(** [", ".join(parts)]. *)
Definition comma_join (parts : list string) : string :=
  match parts with
  | [] => EmptyString
  | p :: ps => fold_left (fun acc q => acc +:+ ", " +:+ q) ps p
  end.

Fixpoint json_dumps (v : value) : string :=
  match v with
  | VNone => "null"
  | VBool true => "true"
  | VBool false => "false"
  | VInt n => str_int n
  | VStr s => json_string s
  | VList l => "[" +:+ comma_join (List.map json_dumps l) +:+ "]"
  | VDict d =>
      "{" +:+
      comma_join (List.map (fun kv => json_string (fst kv) +:+ ": " +:+ json_dumps (snd kv)) d)
      +:+ "}"
  end.

(** ** [repr] and [str] *)

Definition quote : string := String (ascii_of_nat 39) EmptyString.

Fixpoint contains (c : ascii) (s : string) : bool :=
  match s with
  | EmptyString => false
  | String c' s' => Ascii.eqb c' c || contains c s'
  end.

(** One character of the [repr] of a [str] delimited by [q]: the
    delimiter and the backslash are escaped, tab, newline and return have
    their letter, and the other characters that are not printable (the
    control characters, the no-break space and the soft hyphen) are written
    in hexadecimal. *)
Definition repr_char (q : ascii) (c : ascii) : string :=
  let n := nat_of_ascii c in
  if (Ascii.eqb c q || (n =? 92))%nat then backslash +:+ String c EmptyString
  else if (n =? 9)%nat then backslash +:+ "t"
  else if (n =? 10)%nat then backslash +:+ "n"
  else if (n =? 13)%nat then backslash +:+ "r"
  else if ((n <? 32) || ((126 <? n) && (n <? 161)) || (n =? 173))%nat then
    backslash +:+ "x" +:+
      String (hex_digit (n / 16)) (String (hex_digit (n mod 16)) EmptyString)
  else String c EmptyString.

Fixpoint repr_chars (q : ascii) (s : string) : string :=
  match s with
  | EmptyString => EmptyString
  | String c s' => repr_char q c +:+ repr_chars q s'
  end.

(** [repr(s)] for a [str]: single quotes, unless [s] holds a single quote
    and no double quote. *)
Definition repr_str (s : string) : string :=
  if contains (ascii_of_nat 39) s && negb (contains (ascii_of_nat 34) s)
  then dq +:+ repr_chars (ascii_of_nat 34) s +:+ dq
  else quote +:+ repr_chars (ascii_of_nat 39) s +:+ quote.

Fixpoint py_repr (v : value) : string :=
  match v with
  | VNone => "None"
  | VBool true => "True"
  | VBool false => "False"
  | VInt n => str_int n
  | VStr s => repr_str s
  | VList l => "[" +:+ comma_join (List.map py_repr l) +:+ "]"
  | VDict d =>
      "{" +:+
      comma_join (List.map (fun kv => repr_str (fst kv) +:+ ": " +:+ py_repr (snd kv)) d)
      +:+ "}"
  end.

(** [str(v)], which is also what an f-string substitutes for [v]. *)
Definition py_str (v : value) : string :=
  match v with
  | VStr s => s
  | _ => py_repr v
  end.

(** ** The Lambda event *)

(** The event of an API Gateway HTTP request: each of the three entries the
    handlers read may be missing from the event. *)
Record event := {
  cookies : option (list string);
  headers : option (gmap string string);
  queryStringParameters : option (gmap string string)
}.

Definition context := unit.

(** [d[k]] on an entry of the event that may be missing. *)
Definition event_entry {A} (name : string) (o : option A) : result A :=
  match o with
  | Some a => ok a
  | None => err (KeyError name)
  end.

Definition map_entry (m : gmap string string) (k : string) : result string :=
  match m !! k with
  | Some v => ok v
  | None => err (KeyError k)
  end.

(** ** parse_cookies *)

(** One turn of the loop of [parse_cookies]. *)
Definition parse_cookie (res : gmap string string) (cookie : string)
  : result (gmap string string) :=
  match str_split ";" cookie with
  | [] => err IndexError
  | first :: _ =>
      match str_split "=" first with
      | [name; val] => ok (<[name := val]> res)
      | _ => err ValueError
      end
  end.

Fixpoint parse_cookies_from (res : gmap string string) (cookies : list string)
  : result (gmap string string) :=
  match cookies with
  | [] => ok res
  | cookie :: rest =>
      rbind (parse_cookie res cookie) (fun res' => parse_cookies_from res' rest)
  end.

Definition parse_cookies (cookies : list string) : result (gmap string string) :=
  parse_cookies_from ∅ cookies.

(** ** get_all *)

(** A page returned by a paginated method: a list carrying, except on the
    last page, the attribute [_pagination_next]. *)
Record page := {
  items : list value;
  pagination_next : option dict
}.

(** [page._pagination_next["max_id"]]. *)
Definition next_max_id (p : page) : result value :=
  match pagination_next p with
  | None => err AttributeError
  | Some d =>
      match dict_get d "max_id" with
      | Some c => ok c
      | None => err (KeyError "max_id")
      end
  end.

(** The [while True] loop of [get_all]; one unit of [fuel] per turn. *)
Fixpoint get_all_loop {W A} (fuel : nat) (func : A -> option value -> M W page)
  (args : A) (res : list value) (p : page) : M W (list value) :=
  match fuel with
  | O => diverge
  | S fuel' =>
      let res := res ++ items p in
      let* next :=
        try_except
          (let* max_id := lift (next_max_id p) in
           let* p' := func args (Some max_id) in
           ret (Some p'))
          (fun e => if is_AttributeError e then Some (ret None) else None) in
      match next with
      | Some p' => get_all_loop fuel' func args res p'
      | None => ret res
      end
  end.

Definition get_all {W A} (fuel : nat) (func : A -> option value -> M W page)
  (args : A) : M W (list value) :=
  let* p := func args None in
  get_all_loop fuel func args [] p.

(** ** The remote API client and the session table *)

(** The module [cfg] is not part of the sources: its three constants are
    taken as a parameter. *)
Record Config := {
  client_id : string;
  client_secret : string;
  access_token : string
}.

Module Mastodon.

(** A client object: the arguments its constructor was given. *)
Record client := {
  client_id : string;
  client_secret : string;
  access_token : option string;
  api_base_url : string
}.

(** The methods of the client the handlers call, with their arguments. *)
Inductive call :=
| me
| account_following (id : value) (max_id : option value)
| lists
| list_accounts (id : value) (max_id : option value)
| list_create (title : value)
| list_delete (id : value)
| list_accounts_add (id : value) (account_ids : list value)
| list_accounts_delete (id : value) (account_ids : list value)
| auth_request_url (scopes : list string) (redirect_uris : string)
| log_in (code : string) (redirect_uri : string) (scopes : list string).

(** What each method returns. *)
Definition reply (c : call) : Type :=
  match c with
  | me => value
  | account_following _ _ => page
  | lists => list value
  | list_accounts _ _ => page
  | list_create _ => unit
  | list_delete _ => unit
  | list_accounts_add _ _ => unit
  | list_accounts_delete _ _ => unit
  | auth_request_url _ _ => string
  | log_in _ _ _ => string
  end.

End Mastodon.

(** Everything outside the process, as a deterministic machine over a state
    [S]: the remote server answering each call of a client, the random
    source of [uuid.uuid4], the clock and the time zone of the host.
    [now] is the reading of [datetime.datetime.now()], the local wall-clock
    time, counted in whole seconds; [mktime] is [time.mktime], which turns a
    local wall-clock time into seconds since the epoch as the zone of the
    host has it (the identity on a host that runs on UTC). *)
Record outside (S : Type) := {
  api : forall c : Mastodon.call, Mastodon.client -> S -> result (Mastodon.reply c) * S;
  uuid4_urn : S -> string * S;
  now : S -> Z * S;
  mktime : Z -> Z
}.
Arguments api {S} _ _ _ _.
Arguments uuid4_urn {S} _ _.
Arguments now {S} _ _.
Arguments mktime {S} _ _.

(** An item of the table [authTable], stored under its key. *)
Record item := {
  token : string;
  domain : string;
  expires_at : string
}.

(** What [Database.get] returns for a stored cookie. *)
Record session := {
  session_token : string;
  session_domain : string
}.

Inductive effect :=
| DbGet (cookie : string)
| DbPut (cookie : string) (it : item)
| Remote (m : Mastodon.client) (c : Mastodon.call)
| Printed (s : string).

Record world (S : Type) := {
  db : gmap string item;
  ext : S;
  log : list effect
}.
Arguments db {S} _.
Arguments ext {S} _.
Arguments log {S} _.
Arguments Build_world {S} _ _ _.

Definition is_remote (e : effect) : bool :=
  match e with Remote _ _ => true | _ => false end.

Definition is_write (e : effect) : bool :=
  match e with DbPut _ _ => true | _ => false end.

Definition is_auth_request_url (e : effect) : bool :=
  match e with Remote _ (Mastodon.auth_request_url _ _) => true | _ => false end.

Definition session_cookie : string := "list-manager-cookie".

Definition scopes_requested : list string :=
  ["read:lists"; "read:follows"; "read:accounts"; "write:lists"].

Module Database.

(** [Database.get]. *)
Definition get {S} (cookie : string) : M (world S) (option session) :=
  fun w =>
    let w' := Build_world (db w) (ext w) (log w ++ [DbGet cookie]) in
    match db w !! cookie with
    | Some it =>
        (Ok (Some {| session_token := token it; session_domain := domain it |}), w')
    | None => (Ok None, w')
    end.

(** [str(unix)] for the float [unix] of a whole number of seconds. *)
Definition str_seconds (t : Z) : string := str_int t +:+ ".0".

(** [Database.set]: one day is added to the wall-clock time, and the item
    expires at the epoch time [time.mktime] gives for the result. *)
Definition set {S} (R : outside S) (cookie tok dom : string) : M (world S) unit :=
  fun w =>
    let (t, s) := now R (ext w) in
    let expire := t + 86400 in
    let unix := mktime R expire in
    let it := {| token := tok; domain := dom; expires_at := str_seconds unix |} in
    (Ok tt, Build_world (<[cookie := it]> (db w)) s (log w ++ [DbPut cookie it])).

(** The default of the parameter [domain] of [set]. *)
Definition default_domain : string := "hachyderm.io".

End Database.

Section Handlers.

Context {S : Type}.
Variable Cfg : Config.
Variable R : outside S.

Local Abbreviation W := (world S).

Definition emit (e : effect) : M W unit :=
  fun w => (Ok tt, Build_world (db w) (ext w) (log w ++ [e])).

Definition print (s : string) : M W unit := emit (Printed s).

(** A call of a method of the client [m]. *)
Definition remote (m : Mastodon.client) (c : Mastodon.call) : M W (Mastodon.reply c) :=
  fun w =>
    let (r, s) := api R c m (ext w) in
    let w' := Build_world (db w) s (log w ++ [Remote m c]) in
    match r with
    | ok a => (Ok a, w')
    | err e => (Raise e, w')
    end.

(** [uuid.uuid4().urn]. *)
Definition fresh_uuid_urn : M W string :=
  fun w =>
    let (u, s) := uuid4_urn R (ext w) in
    (Ok u, Build_world (db w) s (log w)).

Definition get_mastodon (cookie : string) : M W Mastodon.client :=
  let* info := Database.get cookie in
  let tok := match info with None => None | Some i => Some (session_token i) end in
  ret {| Mastodon.client_id := client_id Cfg;
         Mastodon.client_secret := client_secret Cfg;
         Mastodon.access_token := tok;
         Mastodon.api_base_url := "https://hachyderm.io" |}.

(** The client built from the configured access token in [auth] and
    [callback]. *)
Definition config_mastodon : Mastodon.client :=
  {| Mastodon.client_id := client_id Cfg;
     Mastodon.client_secret := client_secret Cfg;
     Mastodon.access_token := Some (access_token Cfg);
     Mastodon.api_base_url := "https://hachyderm.io" |}.

Definition response (body : string) (statusCode : Z) : value :=
  VDict [("statusCode", VInt statusCode); ("body", VStr body)].

(** The literal [{"statusCode": 500, "body": "ERROR"}]. *)
Definition error_500 : value :=
  VDict [("statusCode", VInt 500); ("body", VStr "ERROR")].

(** [response(json.dumps({"status": "no_cookie"}), statusCode=403)]. *)
Definition no_cookie_response : value :=
  response (json_dumps (VDict [("status", VStr "no_cookie")])) 403.

(** *** info *)

Fixpoint mapM {A B} (f : A -> result B) (l : list A) : result (list B) :=
  match l with
  | [] => ok []
  | a :: l' =>
      rbind (f a) (fun b => rbind (mapM f l') (fun bs => ok (b :: bs)))
  end.

Fixpoint foldM {A B} (f : B -> A -> result B) (l : list A) (b : B) : result B :=
  match l with
  | [] => ok b
  | a :: l' => rbind (f b a) (foldM f l')
  end.

(** [for f in followers: f["lists"] = []]. *)
Definition init_lists (followers : list value) : result (list value) :=
  mapM (fun f => store_subscript f "lists" (VList [])) followers.

(** [{x["id"]: x for x in followers}].  The dict holds the follower objects
    themselves, not copies: an entry is the position of the object in
    [followers], and a later follower with an equal id replaces an earlier
    one. *)
Fixpoint make_followermap (followers : list value) (i : nat) (fm : gmap key nat)
  : result (gmap key nat) :=
  match followers with
  | [] => ok fm
  | x :: rest =>
      rbind (subscript x "id") (fun id =>
      rbind (key_of id) (fun k =>
      make_followermap rest (Datatypes.S i) (<[k := i]> fm)))
  end.

(** The body of [for acct in accts]: the append goes through the object
    shared by [followermap] and [followers]. *)
Definition join_acct (followermap : gmap key nat) (l : value)
  (followers : list value) (acct : value) : result (list value) :=
  rbind (subscript acct "id") (fun aid =>
  rbind (key_of aid) (fun k =>
  match followermap !! k with
  | Some i =>
      match followers !! i with
      | Some (VDict d) =>
          match dict_get d "lists" with
          | Some (VList ls) =>
              rbind (subscript l "id") (fun lid =>
              ok (<[i := VDict (dict_set d "lists" (VList (ls ++ [lid])))]> followers))
          | Some _ => err AttributeError
          | None => err (KeyError "lists")
          end
      | Some _ => err TypeError
      | None => err IndexError
      end
  | None =>
      (* This is someone I'm not following *)
      ok followers
  end)).

(** [for l in lists: ...]. *)
Fixpoint join_lists (fuel : nat) (mastodon : Mastodon.client) (followermap : gmap key nat)
  (ls : list value) (followers : list value) : M W (list value) :=
  match ls with
  | [] => ret followers
  | l :: rest =>
      let* lid := lift (subscript l "id") in
      let* accts := get_all fuel (fun id max_id => remote mastodon (Mastodon.list_accounts id max_id)) lid in
      let* followers' := lift (foldM (join_acct followermap l) accts followers) in
      join_lists fuel mastodon followermap rest followers'
  end.

Definition out_fields : list string :=
  ["id"; "lists"; "display_name"; "username"; "acct"; "note"; "avatar"].

(** The dict comprehension of [outpeople] for one follower [x]. *)
Definition out_person (x : value) : result value :=
  rbind
    (mapM (fun k =>
             if String.eqb k "id"
             then rbind (subscript x k) (fun v => ok (k, VStr (py_str v)))
             else rbind (subscript x k) (fun v => ok (k, v)))
          out_fields)
    (fun fields => ok (VDict fields)).

(** What follows the [try] statement of [info]. *)
Definition info_body (fuel : nat) (cookie : string) (mastodon : Mastodon.client)
  (me_ : value) : M W value :=
  let* me_id := lift (subscript me_ "id") in
  let* followers :=
    get_all fuel (fun id max_id => remote mastodon (Mastodon.account_following id max_id)) me_id in
  let* followers := lift (init_lists followers) in
  let* followermap := lift (make_followermap followers 0%nat ∅) in
  let* ls := remote mastodon Mastodon.lists in
  let* followers := join_lists fuel mastodon followermap ls followers in
  let outlists := ls in
  let* outpeople := lift (mapM out_person followers) in
  let* info := Database.get cookie in
  let dom := match info with None => "" | Some i => session_domain i end in
  let* username := lift (subscript me_ "username") in
  let* acct := lift (subscript me_ "acct") in
  let* display_name := lift (subscript me_ "display_name") in
  let meinfo :=
    VDict [("username", username);
           ("acct", VStr (py_str acct +:+ "@" +:+ dom));
           ("display_name", display_name)] in
  let output :=
    VDict [("lists", VList outlists); ("followers", VList outpeople); ("me", meinfo)] in
  ret (VStr (json_dumps output)).

Definition info (fuel : nat) (event : event) (context : context) : M W value :=
  let* cookies := lift (parse_cookies (default [] (cookies event))) in
  match cookies !! session_cookie with
  | None =>
      (* If we have no cookie, tell the client to go away *)
      ret no_cookie_response
  | Some cookie =>
      let* r :=
        try_except
          (let* mastodon := get_mastodon cookie in
           let* me_ := remote mastodon Mastodon.me in
           ret (inl (mastodon, me_)))
          (fun e =>
             if is_MastodonIllegalArgumentError e then Some (ret (inr error_500))
             else if is_MastodonInternalServerError e then Some (ret (inr error_500))
             else if is_MastodonUnauthorizedError e then Some (ret (inr no_cookie_response))
             else None) in
      match r with
      | inr early => ret early
      | inl (mastodon, me_) => info_body fuel cookie mastodon me_
      end
  end.

(** *** auth and callback *)

Definition make_redirect_url (event : event) : result string :=
  rbind (event_entry "headers" (headers event)) (fun h =>
  rbind (map_entry h "origin") (fun origin =>
  if String.eqb origin "http://localhost:3000" then ok "http://localhost:3000/callback"
  else ok "https://acbeers.github.io/mastodonlm/callback")).

Definition make_cookie_options (event : event) : result string :=
  rbind (event_entry "headers" (headers event)) (fun h =>
  rbind (map_entry h "host") (fun host =>
  if String.eqb (last_chars 13 host) "amazonaws.com"
  then ok "Domain=amazonaws.com; SameSite=None; Secure; "
  else ok "Domain=localhost; ")).

(** [{"statusCode": 200, "body": json.dumps({"status": "OK"})}]. *)
Definition logged_in_response : value :=
  VDict [("statusCode", VInt 200);
         ("body", VStr (json_dumps (VDict [("status", VStr "OK")])))].

Definition auth (event : event) (context : context) : M W value :=
  (* First, see if we have an active session *)
  let* cookies := lift (parse_cookies (default [] (cookies event))) in
  let* early :=
    match cookies !! session_cookie with
    | Some cookie =>
        try_except
          (let* test := get_mastodon cookie in
           let* _ := remote test Mastodon.me in
           let* _ := print "Already logged in" in
           ret (Some logged_in_response))
          (fun e => if is_MastodonAPIError e then Some (ret None) else None)
    | None => ret None
    end in
  match early with
  | Some r => ret r
  | None =>
      let* redirect_url := lift (make_redirect_url event) in
      let mastodon := config_mastodon in
      let* url := remote mastodon (Mastodon.auth_request_url scopes_requested redirect_url) in
      ret (response (json_dumps (VDict [("url", VStr url)])) 200)
  end.

(** The literal ['{"status":"OK"}']. *)
Definition status_ok_body : string :=
  "{" +:+ dq +:+ "status" +:+ dq +:+ ":" +:+ dq +:+ "OK" +:+ dq +:+ "}".

Definition callback (event : event) (context : context) : M W value :=
  let* code :=
    lift (rbind (event_entry "queryStringParameters" (queryStringParameters event))
                (fun q => map_entry q "code")) in
  let mastodon := config_mastodon in
  let* redirect_url := lift (make_redirect_url event) in
  let* cookie_options := lift (make_cookie_options event) in
  let* tok := remote mastodon (Mastodon.log_in code redirect_url scopes_requested) in
  let* cookie := fresh_uuid_urn in
  let* _ := Database.set R cookie tok Database.default_domain in
  let cookie_str :=
    cookie +:+ "; " +:+ cookie_options +:+ " Max-Age=" +:+ str_int (60 * 60 * 24) in
  ret (VDict [("statusCode", VInt 200);
              ("headers", VDict [("Set-Cookie", VStr ("list-manager-cookie=" +:+ cookie_str))]);
              ("body", VStr status_ok_body)]).

(** *** The four mutations *)

(** [event["queryStringParameters"][name]]. *)
Definition query (event : event) (name : string) : result string :=
  rbind (event_entry "queryStringParameters" (queryStringParameters event))
        (fun q => map_entry q name).

Definition add_to_list (event : event) (context : context) : M W value :=
  let* cookies :=
    lift (rbind (event_entry "cookies" (cookies event)) parse_cookies) in
  match cookies !! session_cookie with
  | None =>
      (* If we have no cookie, tell the client to go away *)
      ret no_cookie_response
  | Some cookie =>
      let* r :=
        try_except
          (let* mastodon := get_mastodon cookie in ret (inl mastodon))
          (fun e =>
             if is_MastodonIllegalArgumentError e then Some (ret (inr error_500))
             else if is_MastodonInternalServerError e then Some (ret (inr error_500))
             else None) in
      match r with
      | inr early => ret early
      | inl mastodon =>
          let* lid := lift (query event "list_id") in
          let* accountid := lift (query event "account_id") in
          try_except
            (let* _ := remote mastodon (Mastodon.list_accounts_add (VStr lid) [VStr accountid]) in ret (response "OK" 200))
            (fun e =>
               if is_MastodonAPIError e then Some (ret (response "ERROR" 500))
               else None)
      end
  end.

Definition remove_from_list (event : event) (context : context) : M W value :=
  let* cookies :=
    lift (rbind (event_entry "cookies" (cookies event)) parse_cookies) in
  match cookies !! session_cookie with
  | None =>
      (* If we have no cookie, tell the client to go away *)
      ret no_cookie_response
  | Some cookie =>
      let* r :=
        try_except
          (let* mastodon := get_mastodon cookie in ret (inl mastodon))
          (fun e =>
             if is_MastodonIllegalArgumentError e then Some (ret (inr error_500))
             else if is_MastodonInternalServerError e then Some (ret (inr error_500))
             else None) in
      match r with
      | inr early => ret early
      | inl mastodon =>
          let* lid := lift (query event "list_id") in
          let* accountid := lift (query event "account_id") in
          try_except
            (let* _ := remote mastodon (Mastodon.list_accounts_delete (VStr lid) [VStr accountid]) in ret (response "OK" 200))
            (fun e =>
               if is_MastodonAPIError e then Some (ret (response "ERROR" 500))
               else None)
      end
  end.

Definition create_list (event : event) (context : context) : M W value :=
  let* cookies :=
    lift (rbind (event_entry "cookies" (cookies event)) parse_cookies) in
  match cookies !! session_cookie with
  | None =>
      (* If we have no cookie, tell the client to go away *)
      ret no_cookie_response
  | Some cookie =>
      let* r :=
        try_except
          (let* mastodon := get_mastodon cookie in ret (inl mastodon))
          (fun e =>
             if is_MastodonIllegalArgumentError e then Some (ret (inr error_500))
             else if is_MastodonInternalServerError e then Some (ret (inr error_500))
             else None) in
      match r with
      | inr early => ret early
      | inl mastodon =>
          let* lname := lift (query event "list_name") in
          try_except
            (let* _ := remote mastodon (Mastodon.list_create (VStr lname)) in ret (response "OK" 200))
            (fun e =>
               if is_MastodonAPIError e then Some (ret (response "ERROR" 500))
               else None)
      end
  end.

Definition delete_list (event : event) (context : context) : M W value :=
  let* cookies :=
    lift (rbind (event_entry "cookies" (cookies event)) parse_cookies) in
  match cookies !! session_cookie with
  | None =>
      (* If we have no cookie, tell the client to go away *)
      ret no_cookie_response
  | Some cookie =>
      let* r :=
        try_except
          (let* mastodon := get_mastodon cookie in ret (inl mastodon))
          (fun e =>
             if is_MastodonIllegalArgumentError e then Some (ret (inr error_500))
             else if is_MastodonInternalServerError e then Some (ret (inr error_500))
             else None) in
      match r with
      | inr early => ret early
      | inl mastodon =>
          let* lid := lift (query event "list_id") in
          try_except
            (let* _ := remote mastodon (Mastodon.list_delete (VStr lid)) in ret (response "OK" 200))
            (fun e =>
               if is_MastodonAPIError e then Some (ret (response "ERROR" 500))
               else None)
      end
  end.

(** The shape shared by the four handlers above, used to reason about them
    together: resolve the session and build the client, then read the
    query parameters and perform the one call. *)
Definition with_session (event : event) (mutate : Mastodon.client -> M W value) : M W value :=
  let* cookies :=
    lift (rbind (event_entry "cookies" (cookies event)) parse_cookies) in
  match cookies !! session_cookie with
  | None => ret no_cookie_response
  | Some cookie =>
      let* r :=
        try_except
          (let* mastodon := get_mastodon cookie in ret (inl mastodon))
          (fun e =>
             if is_MastodonIllegalArgumentError e then Some (ret (inr error_500))
             else if is_MastodonInternalServerError e then Some (ret (inr error_500))
             else None) in
      match r with
      | inr early => ret early
      | inl mastodon => mutate mastodon
      end
  end.

Definition try_mutation (mastodon : Mastodon.client) (c : Mastodon.call) : M W value :=
  try_except
    (let* _ := remote mastodon c in ret (response "OK" 200))
    (fun e => if is_MastodonAPIError e then Some (ret (response "ERROR" 500)) else None).

End Handlers.

(** ** Notions used to state the properties *)

(** The client [get_mastodon] builds for a cookie, given the table. *)
Definition session_client (Cfg : Config) (tbl : gmap string item) (cookie : string)
  : Mastodon.client :=
  {| Mastodon.client_id := client_id Cfg;
     Mastodon.client_secret := client_secret Cfg;
     Mastodon.access_token := token <$> tbl !! cookie;
     Mastodon.api_base_url := "https://hachyderm.io" |}.

(** The world after one more effect, and after an answer of the outside. *)
Definition logged {S} (w : world S) (l : list effect) : world S :=
  Build_world (db w) (ext w) (log w ++ l).

Definition moved {S} (w : world S) (s : S) (l : list effect) : world S :=
  Build_world (db w) s (log w ++ l).

(** The request carries the session cookie [cookie]. *)
Definition carries (ev : event) (cookie : string) : Prop :=
  exists l jar,
    cookies ev = Some l /\ parse_cookies l = ok jar /\ jar !! session_cookie = Some cookie.

(** What a handler that performs the one call [c] on the client [m] of the
    session [cookie] does from [w]: the call is the only one made, its
    success gives 200, an API error 500, and any other exception goes
    through. *)
Definition one_call {S} (R : outside S) (w : world S) (cookie : string)
  (m : Mastodon.client) (c : Mastodon.call) (r : outcome value * world S) : Prop :=
  forall a s, api R c m (ext w) = (a, s) ->
    snd r = moved w s [DbGet cookie; Remote m c] /\
    filter (fun e => is_remote e) [DbGet cookie; Remote m c] = [Remote m c] /\
    match a with
    | ok _ => fst r = Ok (VDict [("statusCode", VInt 200); ("body", VStr "OK")])
    | err e =>
        if is_MastodonAPIError e
        then fst r = Ok (VDict [("statusCode", VInt 500); ("body", VStr "ERROR")])
        else fst r = Raise e
    end.

(** *** Pagination *)

(** A fetch function observed: each call is appended to a record of the
    arguments it was given. *)
Definition recording {W A} (func : A -> option value -> M W page)
  : A -> option value -> M (W * list (A * option value)) page :=
  fun args max_id st =>
    let (r, w') := func args max_id (fst st) in
    (r, (w', snd st ++ [(args, max_id)])).

(** The cursor a page carries, if any. *)
Definition cursor (p : page) : option value :=
  match next_max_id p with
  | ok c => Some c
  | err _ => None
  end.

(** [yields func args max_id w ps w']: called from [w] with [max_id], and
    then each time with the cursor of the page it has just returned, [func]
    returns the pages [ps] in turn, the last one alone lacking the
    attribute [_pagination_next], and leaves the state [w']. *)
Inductive yields {W A} (func : A -> option value -> M W page) (args : A)
  : option value -> W -> list page -> W -> Prop :=
| yields_last max_id w p w' :
    func args max_id w = (Ok p, w') ->
    pagination_next p = None ->
    yields func args max_id w [p] w'
| yields_next max_id w p c w1 ps w' :
    func args max_id w = (Ok p, w1) ->
    next_max_id p = ok c ->
    yields func args (Some c) w1 ps w' ->
    yields func args max_id w (p :: ps) w'.

(** A stub that returns the pages it holds one after the other, whatever
    its arguments. *)
Definition stub {A} : A -> option value -> M (list page) page :=
  fun _ _ st =>
    match st with
    | p :: rest => (Ok p, rest)
    | [] => (Raise StopIteration, [])
    end.

(** [fetched func args max_id w ps max_id' w']: called from [w] with
    [max_id], and then each time with the cursor of the page it has just
    returned, [func] returns the pages [ps], each of them carrying a cursor;
    the next call is due from [w'] with [max_id']. *)
Inductive fetched {W A} (func : A -> option value -> M W page) (args : A)
  : option value -> W -> list page -> option value -> W -> Prop :=
| fetched_nil max_id w : fetched func args max_id w [] max_id w
| fetched_cons max_id w p c w1 ps max_id' w' :
    func args max_id w = (Ok p, w1) ->
    next_max_id p = ok c ->
    fetched func args (Some c) w1 ps max_id' w' ->
    fetched func args max_id w (p :: ps) max_id' w'.

(** *** Accounts and memberships *)

Definition has_field (x : value) (k : string) : bool :=
  match subscript x k with
  | ok _ => true
  | err _ => false
  end.

(** The key under which [followermap] holds the account [x]. *)
Definition account_key (x : value) : option key :=
  match rbind (subscript x "id") key_of with
  | ok k => Some k
  | err _ => None
  end.

(** An account record as the aggregation needs it: a dict with a hashable
    [id] and the fields that are emitted. *)
Definition is_account (x : value) : bool :=
  match account_key x with Some _ => true | None => false end
  && forallb (has_field x) ["display_name"; "username"; "acct"; "note"; "avatar"].

(** A list member: a dict with a hashable [id]. *)
Definition is_member (x : value) : bool :=
  match account_key x with Some _ => true | None => false end.

(** The accounts of each list in turn, as [info] fetches them. *)
Fixpoint fetch_members {S} (R : outside S) (fuel : nat) (mastodon : Mastodon.client)
  (ls : list value) : M (world S) (list (list value)) :=
  match ls with
  | [] => ret []
  | l :: rest =>
      let* lid := lift (subscript l "id") in
      let* accts :=
        get_all fuel (fun id max_id => remote R mastodon (Mastodon.list_accounts id max_id)) lid in
      let* more := fetch_members R fuel mastodon rest in
      ret (accts :: more)
  end.

(** The ids of the lists [ls], with members [membs], that the member test
    [mine] selects: one occurrence per selected member. *)
Definition list_ids_where (mine : value -> bool) (ls : list value)
  (membs : list (list value)) : list value :=
  flat_map (fun lm =>
              match subscript (fst lm) "id" with
              | ok lid => flat_map (fun acct => if mine acct then [lid] else []) (snd lm)
              | err _ => []
              end)
           (zip ls membs).

(** The position of the last follower whose id is the key [k]. *)
Fixpoint last_with_key (followers : list value) (i : nat) (k : key) (found : option nat)
  : option nat :=
  match followers with
  | [] => found
  | x :: rest =>
      last_with_key rest (Datatypes.S i) k
        (if decide (account_key x = Some k) then Some i else found)
  end.

(** The follower object [x] once its [lists] entry holds [ms]. *)
Definition with_lists (x : value) (ms : list value) : value :=
  match x with
  | VDict d => VDict (dict_set d "lists" (VList ms))
  | _ => x
  end.

(** The position in [followers] of the object [followermap] holds for the
    id of [acct], if it holds one. *)
Definition owner (followers : list value) (acct : value) : option nat :=
  match account_key acct with
  | Some k => last_with_key followers 0%nat k None
  | None => None
  end.

(** The list ids appended to the follower at position [i]. *)
Definition memberships (followers : list value) (i : nat) (ls : list value)
  (membs : list (list value)) : list value :=
  list_ids_where (fun acct => bool_decide (owner followers acct = Some i)) ls membs.

(** The follower objects [F] when the list ids appended so far to the one
    at position [i] are [acc i]. *)
Definition objects (F : list value) (acc : nat -> list value) : list value :=
  imap (fun i x => with_lists x (acc i)) F.

(** The effect of one member [acct] of the list [lid] on what is appended. *)
Definition append_for (F : list value) (acct : value) (lid : value)
  (acc : nat -> list value) : nat -> list value :=
  fun i => acc i ++ (if bool_decide (owner F acct = Some i) then [lid] else []).

(** The domain stored for [cookie], or the empty string. *)
Definition stored_domain (tbl : gmap string item) (cookie : string) : string :=
  match tbl !! cookie with
  | Some it => domain it
  | None => ""
  end.

(** The value [info] serialises. *)
Definition info_output (ls outpeople : list value) (username : value)
  (handle : string) (display_name : value) : value :=
  VDict [("lists", VList ls);
         ("followers", VList outpeople);
         ("me", VDict [("username", username);
                       ("acct", VStr handle);
                       ("display_name", display_name)])].

(** The entry emitted for the follower [x] once its memberships are [ms]. *)
Definition emitted (x : value) (ms : list value) : option value :=
  match subscript x "id", subscript x "display_name", subscript x "username",
        subscript x "acct", subscript x "note", subscript x "avatar" with
  | ok id, ok dn, ok un, ok ac, ok nt, ok av =>
      Some (VDict [("id", VStr (py_str id)); ("lists", VList ms); ("display_name", dn);
                   ("username", un); ("acct", ac); ("note", nt); ("avatar", av)])
  | _, _, _, _, _, _ => None
  end.

(** What the remote side served to a run of [info] from [w]: the session
    cookie, the client built for it, the caller's record, the accounts
    followed, the lists and the members of each. *)
Record served {S} (Cfg : Config) (R : outside S) (fuel : nat) (ev : event)
  (w : world S) (cookie : string) (me_ : value) (followers ls : list value)
  (membs : list (list value)) (w' : world S) : Prop := {
  served_cookie : carries ev cookie;
  served_worlds : exists w1 w2 w3 me_id,
    remote R (session_client Cfg (db w) cookie) Mastodon.me (logged w [DbGet cookie])
      = (Ok me_, w1) /\
    subscript me_ "id" = ok me_id /\
    get_all fuel
      (fun id max_id =>
         remote R (session_client Cfg (db w) cookie) (Mastodon.account_following id max_id))
      me_id w1 = (Ok followers, w2) /\
    remote R (session_client Cfg (db w) cookie) Mastodon.lists w2 = (Ok ls, w3) /\
    fetch_members R fuel (session_client Cfg (db w) cookie) ls w3 = (Ok membs, w')
}.

(** *** Writes to the session table *)

(** The writes among the effects [l]. *)
Definition writes (l : list effect) : list effect := List.filter is_write l.

(** A computation that only reads the session table: from every world it
    leaves the table as it was and logs no write. *)
Definition reads_only {S A} (m : M (world S) A) : Prop :=
  forall w, db (snd (m w)) = db w /\ writes (log (snd (m w))) = writes (log w).

(** *** Cookies *)

(** How many times the character [sep] occurs in [s]. *)
Fixpoint occurrences (sep : ascii) (s : string) : nat :=
  match s with
  | EmptyString => 0
  | String c s' => (if Ascii.eqb c sep then 1 else 0) + occurrences sep s'
  end.

(** Splitting on the first [=] only: the name before it and the whole of
    what follows it. *)
Fixpoint split_first (sep : ascii) (s : string) : option (string * string) :=
  match s with
  | EmptyString => None
  | String c s' =>
      if Ascii.eqb c sep then Some (EmptyString, s')
      else
        match split_first sep s' with
        | Some (a, b) => Some (String c a, b)
        | None => None
        end
  end.

(** The parse the specification describes: split each cookie on [;], then
    its first part on the first [=]. *)
Fixpoint parse_cookies_first_eq (res : gmap string string) (cookies : list string)
  : result (gmap string string) :=
  match cookies with
  | [] => ok res
  | cookie :: rest =>
      match str_split ";" cookie with
      | [] => err IndexError
      | first :: _ =>
          match split_first "=" first with
          | Some (name, val) => parse_cookies_first_eq (<[name := val]> res) rest
          | None => err ValueError
          end
      end
  end.

(** The answer of a mutation handler to the result [a] of its call. *)
Definition mutation_answer {A} (a : result A) : outcome value :=
  match a with
  | ok _ => Ok (response "OK" 200)
  | err e => if is_MastodonAPIError e then Ok (response "ERROR" 500) else Raise e
  end.

(** The part of a cookie before its first [;], and the name and value the
    parse reads in it: there is a pair when that part holds exactly one
    [=]. *)
Definition first_part (cookie : string) : string :=
  match str_split ";" cookie with
  | first :: _ => first
  | [] => EmptyString
  end.

Definition cookie_pair (cookie : string) : option (string * string) :=
  match str_split "=" (first_part cookie) with
  | [name; val] => Some (name, val)
  | _ => None
  end.

(** ** Concrete requests, tables and remote sides *)

Module Sample.

(** The account and list records of the test suite ([mock_userdict],
    [mock_listdict]), with numeric account ids. *)
Definition mock_userdict (id : Z) (username : string) : value :=
  VDict [("id", VInt id);
         ("display_name", VStr ("dn-" +:+ username));
         ("username", VStr username);
         ("acct", VStr ("act-" +:+ username));
         ("note", VStr ("note-" +:+ username));
         ("avatar", VStr ("avatar-" +:+ username));
         ("following_count", VInt 100)].

Definition mock_listdict (listid : string) : value :=
  VDict [("id", VStr listid); ("title", VStr ("title-" +:+ listid))].

Definition final_page (l : list value) : page :=
  {| items := l; pagination_next := None |}.

Definition page_before (l : list value) (c : value) : page :=
  {| items := l; pagination_next := Some [("max_id", c)] |}.

Definition A : value := mock_userdict 123456789012345 "A".
Definition B : value := mock_userdict 2 "B".
Definition C : value := mock_userdict 3 "C".
Definition L1 : value := mock_listdict "L1".
Definition L2 : value := mock_listdict "L2".

(** A remote side on which the caller follows A and B (served in two
    pages) and owns the lists L1 = {A, C} and L2 = {B}; every mutation
    succeeds. *)
Definition serving_api (c : Mastodon.call) (m : Mastodon.client) (s : unit)
  : result (Mastodon.reply c) * unit :=
  (match c return result (Mastodon.reply c) with
   | Mastodon.me => ok (mock_userdict 1 "me")
   | Mastodon.account_following _ None => ok (page_before [A] (VInt 5))
   | Mastodon.account_following _ (Some _) => ok (final_page [B])
   | Mastodon.lists => ok [L1; L2]
   | Mastodon.list_accounts (VStr "L1") _ => ok (final_page [A; C])
   | Mastodon.list_accounts _ _ => ok (final_page [B])
   | Mastodon.list_create _ | Mastodon.list_delete _
   | Mastodon.list_accounts_add _ _ | Mastodon.list_accounts_delete _ _ => ok tt
   | Mastodon.auth_request_url _ _ => ok "https://mock_redirect"
   | Mastodon.log_in _ _ _ => ok "token-1"
   end, s).

Definition serving : outside unit :=
  {| api := serving_api;
     uuid4_urn := fun s => ("urn:uuid:0b0e2a3c-9d4f-4c1b-8a57-3f6f0c2d9e11", s);
     now := fun s => (1700000000, s);
     mktime := fun t => t |}.

(** A remote side that rejects the credentials of every call that needs
    them. *)
Definition rejecting_api (c : Mastodon.call) (m : Mastodon.client) (s : unit)
  : result (Mastodon.reply c) * unit :=
  (match c return result (Mastodon.reply c) with
   | Mastodon.auth_request_url _ _ => ok "https://mock_redirect"
   | _ => err MastodonUnauthorizedError
   end, s).

Definition rejecting : outside unit :=
  {| api := rejecting_api;
     uuid4_urn := fun s => ("urn:uuid:0b0e2a3c-9d4f-4c1b-8a57-3f6f0c2d9e11", s);
     now := fun s => (1700000000, s);
     mktime := fun t => t |}.

Definition cfg : Config :=
  {| client_id := "id"; client_secret := "secret"; access_token := "app-token" |}.

Definition the_cookie : string := "urn:uuid:6fa459ea-ee8a-3ca4-894e-db77e160355e".

Definition table : gmap string item :=
  {[ the_cookie :=
       {| token := "tok"; domain := "hachyderm.io"; expires_at := "1700000000.0" |} ]}.

Definition world0 : world unit := {| db := table; ext := tt; log := [] |}.

(** A request carrying the session cookie and every query parameter. *)
Definition request : event :=
  {| cookies := Some ["list-manager-cookie=" +:+ the_cookie];
     headers := Some {[ "origin" := "none"; "host" := "x.amazonaws.com" ]};
     queryStringParameters :=
       Some {[ "list_id" := "L1"; "account_id" := "2";
               "list_name" := "new"; "code" := "c0de" ]} |}.

(** The same request with a second cookie whose value holds an [=]: the
    session cookie is there, and the cookies do not all parse. *)
Definition request_with_prefs : event :=
  {| cookies := Some ["list-manager-cookie=" +:+ the_cookie; "prefs=a=b"];
     headers := Some {[ "origin" := "none"; "host" := "x.amazonaws.com" ]};
     queryStringParameters :=
       Some {[ "list_id" := "L1"; "account_id" := "2";
               "list_name" := "new"; "code" := "c0de" ]} |}.

(** The event of the test suite for a request without cookies. *)
Definition request_without_cookies : event :=
  {| cookies := None;
     headers := Some {[ "origin" := "none" ]};
     queryStringParameters := None |}.

Definition client0 : Mastodon.client := session_client cfg table the_cookie.

Definition p1 : page := page_before [A] (VInt 10).
Definition p2 : page := page_before [B] (VInt 20).
Definition p3 : page := final_page [C].

(** The entry [info] emits for [mock_userdict id username] on the lists
    [ms]. *)
Definition emitted_user (id : string) (username : string) (ms : list value) : value :=
  VDict [("id", VStr id);
         ("lists", VList ms);
         ("display_name", VStr ("dn-" +:+ username));
         ("username", VStr username);
         ("acct", VStr ("act-" +:+ username));
         ("note", VStr ("note-" +:+ username));
         ("avatar", VStr ("avatar-" +:+ username))].

(** The effects of [info] on [request] against [serving]. *)
Definition info_effects : list effect :=
  [DbGet the_cookie;
   Remote client0 Mastodon.me;
   Remote client0 (Mastodon.account_following (VInt 1) None);
   Remote client0 (Mastodon.account_following (VInt 1) (Some (VInt 5)));
   Remote client0 Mastodon.lists;
   Remote client0 (Mastodon.list_accounts (VStr "L1") None);
   Remote client0 (Mastodon.list_accounts (VStr "L2") None)].

(** A remote side that cannot be reached. *)
Definition offline_api (c : Mastodon.call) (m : Mastodon.client) (s : unit)
  : result (Mastodon.reply c) * unit :=
  (err MastodonNetworkError, s).

Definition offline : outside unit :=
  {| api := offline_api;
     uuid4_urn := fun s => ("urn:uuid:0b0e2a3c-9d4f-4c1b-8a57-3f6f0c2d9e11", s);
     now := fun s => (1700000000, s);
     mktime := fun t => t |}.

(** A request carrying the session cookie and no query string. *)
Definition request_without_query : event :=
  {| cookies := Some ["list-manager-cookie=" +:+ the_cookie];
     headers := Some {[ "origin" := "http://localhost:3000"; "host" := "localhost" ]};
     queryStringParameters := None |}.

(** A fetch that returns a page with a cursor at every call. *)
Definition endless : unit -> option value -> M unit page :=
  fun _ _ s => (Ok p1, s).

(** A remote side whose session ends right after "who am I": that call
    answers, every other one is rejected. *)
Definition expiring_api (c : Mastodon.call) (m : Mastodon.client) (s : unit)
  : result (Mastodon.reply c) * unit :=
  (match c return result (Mastodon.reply c) with
   | Mastodon.me => ok (mock_userdict 1 "me")
   | _ => err MastodonUnauthorizedError
   end, s).

Definition expiring : outside unit :=
  {| api := expiring_api;
     uuid4_urn := fun s => ("urn:uuid:0b0e2a3c-9d4f-4c1b-8a57-3f6f0c2d9e11", s);
     now := fun s => (1700000000, s);
     mktime := fun t => t |}.

(** A remote side on which the account A is returned twice among the
    followed accounts, and is a member of the list L1. *)
Definition repeating_api (c : Mastodon.call) (m : Mastodon.client) (s : unit)
  : result (Mastodon.reply c) * unit :=
  (match c return result (Mastodon.reply c) with
   | Mastodon.me => ok (mock_userdict 1 "me")
   | Mastodon.account_following _ _ => ok (final_page [A; A])
   | Mastodon.lists => ok [L1]
   | Mastodon.list_accounts _ _ => ok (final_page [A; A])
   | Mastodon.list_create _ | Mastodon.list_delete _
   | Mastodon.list_accounts_add _ _ | Mastodon.list_accounts_delete _ _ => ok tt
   | Mastodon.auth_request_url _ _ => ok "https://mock_redirect"
   | Mastodon.log_in _ _ _ => ok "token-1"
   end, s).

Definition repeating : outside unit :=
  {| api := repeating_api;
     uuid4_urn := fun s => ("urn:uuid:0b0e2a3c-9d4f-4c1b-8a57-3f6f0c2d9e11", s);
     now := fun s => (1700000000, s);
     mktime := fun t => t |}.

End Sample.

(** * Properties *)

(** ** The monad *)

Lemma bind_Ok {W A B} (m : M W A) (f : A -> M W B) w a w' :
  m w = (Ok a, w') -> bind m f w = f a w'.
Proof. intros H. unfold bind. rewrite H. reflexivity. Qed.

Lemma bind_Raise {W A B} (m : M W A) (f : A -> M W B) w e w' :
  m w = (Raise e, w') -> bind m f w = (Raise e, w').
Proof. intros H. unfold bind. rewrite H. reflexivity. Qed.

Lemma bind_lift_ok {W A B} (r : result A) (f : A -> M W B) w a :
  r = ok a -> bind (lift r) f w = f a w.
Proof. intros ->. reflexivity. Qed.

Lemma bind_lift_err {W A B} (r : result A) (f : A -> M W B) w e :
  r = err e -> bind (lift r) f w = (Raise e, w).
Proof. intros ->. reflexivity. Qed.

Lemma bind_inv_Ok {W A B} (m : M W A) (f : A -> M W B) w b w' :
  bind m f w = (Ok b, w') ->
  exists a w1, m w = (Ok a, w1) /\ f a w1 = (Ok b, w').
Proof.
  unfold bind. destruct (m w) as [[a|e|] w1]; intros H; try discriminate.
  exists a, w1. split; [reflexivity | exact H].
Qed.

(** ** Cookies *)

Lemma carries_default ev c :
  carries ev c ->
  exists jar, parse_cookies (default [] (cookies ev)) = ok jar
              /\ jar !! session_cookie = Some c.
Proof. intros (l & jar & -> & Hp & Hc). exists jar. split; assumption. Qed.

Lemma str_split_cons sep s : exists x xs, str_split sep s = x :: xs.
Proof.
  induction s as [|c s (x & xs & IH)]; simpl; [eauto|].
  destruct (Ascii.eqb c sep); [eauto|]. rewrite IH. eauto.
Qed.

Lemma str_split_single sep s x : str_split sep s = [x] -> s = x.
Proof.
  revert x. induction s as [|c s IH]; intros x; simpl.
  - intros [= <-]. reflexivity.
  - destruct (str_split_cons sep s) as (y & ys & E). rewrite E in *.
    destruct (Ascii.eqb c sep); [intros [=]|].
    intros [= <- ->]. rewrite (IH y eq_refl). reflexivity.
Qed.

Lemma split_first_of_split s name val :
  str_split "=" s = [name; val] -> split_first "=" s = Some (name, val).
Proof.
  revert name val. induction s as [|c s IH]; intros name val; simpl.
  - intros [=].
  - destruct (str_split_cons "=" s) as (x & xs & E). rewrite E in *.
    destruct (Ascii.eqb c "=").
    + intros [= <- <- ->]. rewrite (str_split_single _ _ _ E). reflexivity.
    + intros [= <- ->]. rewrite (IH x val eq_refl). reflexivity.
Qed.

(** Where the handlers' parse returns, it returns what splitting on the
    first [=] gives. *)
Lemma parse_cookies_from_first_eq l : forall res jar,
  parse_cookies_from res l = ok jar -> parse_cookies_first_eq res l = ok jar.
Proof.
  induction l as [|c l IH]; intros res jar; simpl.
  - trivial.
  - unfold parse_cookie.
    destruct (str_split ";" c) as [|first rest]; simpl; [intros [=]|].
    destruct (str_split "=" first) as [|name [|val [|z zs]]] eqn:E; simpl;
      try (intros [=]; fail).
    rewrite (split_first_of_split _ _ _ E). apply IH.
Qed.

(** [str.split] returns one part more than there are separators. *)
Lemma length_str_split sep s :
  length (str_split sep s) = Datatypes.S (occurrences sep s).
Proof.
  induction s as [|c s IH]; simpl; [reflexivity|].
  destruct (str_split_cons sep s) as (x & xs & E). rewrite E in *.
  destruct (Ascii.eqb c sep); simpl in *; lia.
Qed.

(** A cookie whose first part does not hold exactly one [=] makes the
    parse raise [ValueError]. *)
Lemma parse_cookie_ValueError res cookie first rest :
  str_split ";" cookie = first :: rest ->
  occurrences "=" first <> 1%nat ->
  parse_cookie res cookie = err ValueError.
Proof.
  intros E Hn. unfold parse_cookie. rewrite E.
  pose proof (length_str_split "=" first) as Hl.
  destruct (str_split "=" first) as [|a [|b [|c l]]]; simpl in Hl; try reflexivity.
  congruence.
Qed.

(** C8 (the failing input): a cookie whose value holds an [=] is not
    mapped to its name and full value; the parse raises [ValueError], where
    splitting on the first [=] only gives the name with its full value.
    On the lists of cookies for which the parse returns, it returns what
    splitting on the first [=] gives. *)
Theorem parse_cookies_value_with_equals :
  parse_cookies ["prefs=a=b"] = err ValueError
  /\ parse_cookies_first_eq ∅ ["prefs=a=b"] = ok {[ "prefs" := "a=b" ]}
  /\ (forall l jar, parse_cookies l = ok jar -> parse_cookies_first_eq ∅ l = ok jar).
Proof.
  split; [vm_compute; reflexivity|]. split; [vm_compute; reflexivity|].
  intros l jar H. apply parse_cookies_from_first_eq. exact H.
Qed.

Lemma parse_cookies_value_with_equals_witness :
  parse_cookies_first_eq ∅ ["theme=dark; Path=/"; "lang=en"]
  = ok (<["lang" := "en"]> {[ "theme" := "dark" ]}).
Proof.
  destruct parse_cookies_value_with_equals as (_ & _ & H).
  apply H. vm_compute. reflexivity.
Defined.

(** ** The session of a request *)

Section Session.

Context {S : Type}.
Variable Cfg : Config.
Variable R : outside S.

Lemma get_mastodon_run cookie (w : world S) :
  get_mastodon Cfg cookie w = (Ok (session_client Cfg (db w) cookie), logged w [DbGet cookie]).
Proof.
  unfold get_mastodon, bind, Database.get, session_client, logged, ret.
  destruct (db w !! cookie); reflexivity.
Qed.

Lemma remote_run m c (w : world S) a s :
  api R c m (ext w) = (a, s) ->
  remote R m c w
  = (match a with ok x => Ok x | err e => Raise e end, moved w s [Remote m c]).
Proof. intros H. unfold remote. rewrite H. destruct a; reflexivity. Qed.

Lemma with_session_missing ev k (w : world S) :
  cookies ev = None ->
  with_session Cfg ev k w = (Raise (KeyError "cookies"), w).
Proof. intros H. unfold with_session. rewrite H. reflexivity. Qed.

Lemma with_session_no_cookie ev k (w : world S) l jar :
  cookies ev = Some l -> parse_cookies l = ok jar -> jar !! session_cookie = None ->
  with_session Cfg ev k w = (Ok no_cookie_response, w).
Proof.
  intros H Hp Hc. unfold with_session. rewrite H. simpl.
  rewrite (bind_lift_ok _ _ _ _ Hp). rewrite Hc. reflexivity.
Qed.

Lemma with_session_cookie ev k (w : world S) c :
  carries ev c ->
  with_session Cfg ev k w = k (session_client Cfg (db w) c) (logged w [DbGet c]).
Proof.
  intros (l & jar & H & Hp & Hc). unfold with_session. rewrite H. simpl.
  rewrite (bind_lift_ok _ _ _ _ Hp). rewrite Hc.
  unfold bind at 1, try_except. rewrite (bind_Ok _ _ _ _ _ (get_mastodon_run c w)).
  reflexivity.
Qed.

Lemma try_mutation_run m c (w : world S) a s :
  api R c m (ext w) = (a, s) ->
  try_mutation R m c w
  = (match a with
     | ok _ => Ok (response "OK" 200)
     | err e => if is_MastodonAPIError e then Ok (response "ERROR" 500) else Raise e
     end, moved w s [Remote m c]).
Proof.
  intros H. unfold try_mutation, try_except, bind. rewrite (remote_run _ _ _ _ _ H).
  destruct a as [x|e]; [reflexivity|].
  destruct (is_MastodonAPIError e); reflexivity.
Qed.

End Session.

Section Requests.

Context {S : Type}.
Variable Cfg : Config.
Variable R : outside S.

Lemma moved_logged (w : world S) s l1 l2 :
  moved (logged w l1) s l2 = moved w s (l1 ++ l2).
Proof. unfold moved, logged. simpl. rewrite <- app_assoc. reflexivity. Qed.

Lemma add_to_list_shape ev ctx :
  add_to_list Cfg R ev ctx
  = with_session Cfg ev (fun mastodon =>
      let* lid := lift (query ev "list_id") in
      let* accountid := lift (query ev "account_id") in
      try_mutation R mastodon (Mastodon.list_accounts_add (VStr lid) [VStr accountid])).
Proof. reflexivity. Qed.

Lemma remove_from_list_shape ev ctx :
  remove_from_list Cfg R ev ctx
  = with_session Cfg ev (fun mastodon =>
      let* lid := lift (query ev "list_id") in
      let* accountid := lift (query ev "account_id") in
      try_mutation R mastodon (Mastodon.list_accounts_delete (VStr lid) [VStr accountid])).
Proof. reflexivity. Qed.

Lemma create_list_shape ev ctx :
  create_list Cfg R ev ctx
  = with_session Cfg ev (fun mastodon =>
      let* lname := lift (query ev "list_name") in
      try_mutation R mastodon (Mastodon.list_create (VStr lname))).
Proof. reflexivity. Qed.

Lemma delete_list_shape ev ctx :
  delete_list Cfg R ev ctx
  = with_session Cfg ev (fun mastodon =>
      let* lid := lift (query ev "list_id") in
      try_mutation R mastodon (Mastodon.list_delete (VStr lid))).
Proof. reflexivity. Qed.

Lemma info_no_cookie fuel ev ctx (w : world S) jar :
  parse_cookies (default [] (cookies ev)) = ok jar ->
  jar !! session_cookie = None ->
  info Cfg R fuel ev ctx w = (Ok no_cookie_response, w).
Proof.
  intros Hp Hc. unfold info. rewrite (bind_lift_ok _ _ _ _ Hp). rewrite Hc. reflexivity.
Qed.

(** Where the cookies of the request are present and parse, and none of
    them is the session cookie, the five handlers answer 403 and leave the
    world as it is: no effect is logged, so the remote API is not called. *)
Lemma no_cookie_gives_403 fuel ev ctx (w : world S) l jar :
  cookies ev = Some l -> parse_cookies l = ok jar -> jar !! session_cookie = None ->
  info Cfg R fuel ev ctx w = (Ok no_cookie_response, w)
  /\ create_list Cfg R ev ctx w = (Ok no_cookie_response, w)
  /\ delete_list Cfg R ev ctx w = (Ok no_cookie_response, w)
  /\ add_to_list Cfg R ev ctx w = (Ok no_cookie_response, w)
  /\ remove_from_list Cfg R ev ctx w = (Ok no_cookie_response, w).
Proof.
  intros H Hp Hc. split.
  - apply info_no_cookie with jar; [rewrite H; exact Hp | exact Hc].
  - rewrite create_list_shape, delete_list_shape, add_to_list_shape, remove_from_list_shape.
    repeat split; eapply with_session_no_cookie; eassumption.
Qed.

(** C2 (the failing input): on an event that has no [cookies] entry at
    all, [info] answers 403 with status [no_cookie] and touches nothing, but
    the four mutation handlers raise [KeyError] instead of answering. *)
Theorem mutations_without_cookies_entry fuel hs qs ctx (w : world S) :
  let ev := {| cookies := None; headers := hs; queryStringParameters := qs |} in
  info Cfg R fuel ev ctx w = (Ok no_cookie_response, w)
  /\ create_list Cfg R ev ctx w = (Raise (KeyError "cookies"), w)
  /\ delete_list Cfg R ev ctx w = (Raise (KeyError "cookies"), w)
  /\ add_to_list Cfg R ev ctx w = (Raise (KeyError "cookies"), w)
  /\ remove_from_list Cfg R ev ctx w = (Raise (KeyError "cookies"), w).
Proof.
  intros ev. split.
  - apply info_no_cookie with ∅; reflexivity.
  - rewrite create_list_shape, delete_list_shape, add_to_list_shape, remove_from_list_shape.
    repeat split; apply with_session_missing; reflexivity.
Qed.

(** The event the test suite builds for a request without cookies. *)
Lemma create_list_on_request_without_cookies ctx (w : world S) :
  create_list Cfg R Sample.request_without_cookies ctx w = (Raise (KeyError "cookies"), w).
Proof. rewrite create_list_shape. apply with_session_missing. reflexivity. Qed.

Lemma mutation_run ev (w : world S) c call a s :
  carries ev c ->
  api R call (session_client Cfg (db w) c) (ext w) = (a, s) ->
  with_session Cfg ev (fun mastodon => try_mutation R mastodon call) w
  = (mutation_answer a,
     moved w s [DbGet c; Remote (session_client Cfg (db w) c) call]).
Proof.
  intros Hc H. rewrite (with_session_cookie Cfg ev _ w c Hc).
  rewrite (try_mutation_run R _ call (logged w [DbGet c]) a s H).
  rewrite moved_logged. reflexivity.
Qed.

Lemma create_list_run ev ctx (w : world S) c lname a s :
  carries ev c -> query ev "list_name" = ok lname ->
  api R (Mastodon.list_create (VStr lname)) (session_client Cfg (db w) c) (ext w) = (a, s) ->
  create_list Cfg R ev ctx w
  = (mutation_answer a,
     moved w s [DbGet c; Remote (session_client Cfg (db w) c) (Mastodon.list_create (VStr lname))]).
Proof.
  intros Hc Hq H. rewrite <- (mutation_run ev w c _ a s Hc H).
  rewrite create_list_shape, !(with_session_cookie Cfg ev _ w c Hc).
  rewrite (bind_lift_ok _ _ _ _ Hq). reflexivity.
Qed.

Lemma delete_list_run ev ctx (w : world S) c lid a s :
  carries ev c -> query ev "list_id" = ok lid ->
  api R (Mastodon.list_delete (VStr lid)) (session_client Cfg (db w) c) (ext w) = (a, s) ->
  delete_list Cfg R ev ctx w
  = (mutation_answer a,
     moved w s [DbGet c; Remote (session_client Cfg (db w) c) (Mastodon.list_delete (VStr lid))]).
Proof.
  intros Hc Hq H. rewrite <- (mutation_run ev w c _ a s Hc H).
  rewrite delete_list_shape, !(with_session_cookie Cfg ev _ w c Hc).
  rewrite (bind_lift_ok _ _ _ _ Hq). reflexivity.
Qed.

Lemma add_to_list_run ev ctx (w : world S) c lid aid a s :
  carries ev c -> query ev "list_id" = ok lid -> query ev "account_id" = ok aid ->
  api R (Mastodon.list_accounts_add (VStr lid) [VStr aid])
    (session_client Cfg (db w) c) (ext w) = (a, s) ->
  add_to_list Cfg R ev ctx w
  = (mutation_answer a,
     moved w s [DbGet c; Remote (session_client Cfg (db w) c)
                           (Mastodon.list_accounts_add (VStr lid) [VStr aid])]).
Proof.
  intros Hc Hq Hq' H. rewrite <- (mutation_run ev w c _ a s Hc H).
  rewrite add_to_list_shape, !(with_session_cookie Cfg ev _ w c Hc).
  rewrite (bind_lift_ok _ _ _ _ Hq), (bind_lift_ok _ _ _ _ Hq'). reflexivity.
Qed.

Lemma remove_from_list_run ev ctx (w : world S) c lid aid a s :
  carries ev c -> query ev "list_id" = ok lid -> query ev "account_id" = ok aid ->
  api R (Mastodon.list_accounts_delete (VStr lid) [VStr aid])
    (session_client Cfg (db w) c) (ext w) = (a, s) ->
  remove_from_list Cfg R ev ctx w
  = (mutation_answer a,
     moved w s [DbGet c; Remote (session_client Cfg (db w) c)
                           (Mastodon.list_accounts_delete (VStr lid) [VStr aid])]).
Proof.
  intros Hc Hq Hq' H. rewrite <- (mutation_run ev w c _ a s Hc H).
  rewrite remove_from_list_shape, !(with_session_cookie Cfg ev _ w c Hc).
  rewrite (bind_lift_ok _ _ _ _ Hq), (bind_lift_ok _ _ _ _ Hq'). reflexivity.
Qed.

Lemma one_call_of_run (w : world S) c m call r :
  (forall a s, api R call m (ext w) = (a, s) ->
     r = (mutation_answer a, moved w s [DbGet c; Remote m call])) ->
  one_call R w c m call r.
Proof.
  intros Hr a s H. rewrite (Hr a s H). simpl.
  split; [reflexivity|]. split; [reflexivity|].
  destruct a as [x|e]; [reflexivity|].
  simpl. destruct (is_MastodonAPIError e); reflexivity.
Qed.

(** When the cookies parse and hold the session cookie and the identifiers
    are present in the query parameters, each of the four handlers makes
    exactly the one corresponding mutation call with those identifiers,
    answers 200 [OK] when it succeeds and 500 [ERROR] when it raises an API
    error. *)
Lemma mutation_runs_one_call ev ctx (w : world S) c :
  carries ev c ->
  let m := session_client Cfg (db w) c in
  (forall lname, query ev "list_name" = ok lname ->
     one_call R w c m (Mastodon.list_create (VStr lname)) (create_list Cfg R ev ctx w))
  /\ (forall lid, query ev "list_id" = ok lid ->
     one_call R w c m (Mastodon.list_delete (VStr lid)) (delete_list Cfg R ev ctx w))
  /\ (forall lid aid, query ev "list_id" = ok lid -> query ev "account_id" = ok aid ->
     one_call R w c m (Mastodon.list_accounts_add (VStr lid) [VStr aid])
       (add_to_list Cfg R ev ctx w))
  /\ (forall lid aid, query ev "list_id" = ok lid -> query ev "account_id" = ok aid ->
     one_call R w c m (Mastodon.list_accounts_delete (VStr lid) [VStr aid])
       (remove_from_list Cfg R ev ctx w)).
Proof.
  intros Hc m.
  refine (conj _ (conj _ (conj _ _))); intros; apply one_call_of_run; intros a s Hapi.
  - eapply create_list_run; eassumption.
  - eapply delete_list_run; eassumption.
  - eapply add_to_list_run; eassumption.
  - eapply remove_from_list_run; eassumption.
Qed.

(** When the cookies parse and hold a session cookie for which the remote
    "who am I" call succeeds, [auth] answers 200 with body
    [{"status": "OK"}]; the only effects are the session lookup, that one
    call and the printed line, so no authorization URL is requested. *)
Lemma auth_logged_in_run ev ctx (w : world S) c me_ s :
  carries ev c ->
  api R Mastodon.me (session_client Cfg (db w) c) (ext w) = (ok me_, s) ->
  let new := [DbGet c; Remote (session_client Cfg (db w) c) Mastodon.me;
              Printed "Already logged in"] in
  auth Cfg R ev ctx w
  = (Ok (VDict [("statusCode", VInt 200);
                ("body", VStr (json_dumps (VDict [("status", VStr "OK")])))]),
     moved w s new)
  /\ Forall (fun e => is_auth_request_url e = false) new.
Proof.
  intros Hc Hme new. split.
  - destruct (carries_default ev c Hc) as (jar & Hp & Hj).
    unfold auth. rewrite (bind_lift_ok _ _ _ _ Hp). rewrite Hj.
    unfold bind at 1, try_except.
    rewrite (bind_Ok _ _ _ _ _ (get_mastodon_run Cfg c w)).
    assert (Hr := remote_run R _ _ (logged w [DbGet c]) _ _ Hme).
    rewrite (bind_Ok _ _ _ _ _ Hr).
    unfold bind, print, emit, ret, moved, logged, new. simpl.
    rewrite <- !app_assoc. reflexivity.
  - repeat constructor.
Qed.

End Requests.

Section Unauthorized.

Context {S : Type}.
Variable Cfg : Config.
Variable R : outside S.

Lemma info_early fuel ev ctx (w : world S) c e s :
  carries ev c ->
  api R Mastodon.me (session_client Cfg (db w) c) (ext w) = (err e, s) ->
  info Cfg R fuel ev ctx w
  = (if is_MastodonIllegalArgumentError e then Ok error_500
     else if is_MastodonInternalServerError e then Ok error_500
     else if is_MastodonUnauthorizedError e then Ok no_cookie_response
     else Raise e,
     moved w s [DbGet c; Remote (session_client Cfg (db w) c) Mastodon.me]).
Proof.
  intros Hc Hme. destruct (carries_default ev c Hc) as (jar & Hp & Hj).
  unfold info. rewrite (bind_lift_ok _ _ _ _ Hp). rewrite Hj.
  unfold bind at 1, try_except.
  rewrite (bind_Ok _ _ _ _ _ (get_mastodon_run Cfg c w)).
  assert (Hr := remote_run R _ _ (logged w [DbGet c]) _ _ Hme).
  rewrite (bind_Raise _ _ _ _ _ Hr). rewrite moved_logged.
  destruct e; reflexivity.
Qed.

Lemma auth_not_logged_in ev ctx (w : world S) c e s :
  carries ev c ->
  api R Mastodon.me (session_client Cfg (db w) c) (ext w) = (err e, s) ->
  is_MastodonAPIError e = true ->
  auth Cfg R ev ctx w
  = (let* redirect_url := lift (make_redirect_url ev) in
     let* url := remote R (config_mastodon Cfg)
                   (Mastodon.auth_request_url scopes_requested redirect_url) in
     ret (response (json_dumps (VDict [("url", VStr url)])) 200))
      (moved w s [DbGet c; Remote (session_client Cfg (db w) c) Mastodon.me]).
Proof.
  intros Hc Hme He. destruct (carries_default ev c Hc) as (jar & Hp & Hj).
  unfold auth. rewrite (bind_lift_ok _ _ _ _ Hp). rewrite Hj.
  unfold bind at 1, try_except.
  rewrite (bind_Ok _ _ _ _ _ (get_mastodon_run Cfg c w)).
  assert (Hr := remote_run R _ _ (logged w [DbGet c]) _ _ Hme).
  rewrite (bind_Raise _ _ _ _ _ Hr). rewrite moved_logged. rewrite He.
  reflexivity.
Qed.

(** C1 (as the code has it): the mapping is not uniform.  When the cookies
    of the request parse and hold the session cookie and the remote API
    rejects the "who am I" call with an unauthorized error, [info] answers
    403 with status [no_cookie] and makes no further call, while [auth]
    takes the rejection for "not logged in": it goes on to the OAuth flow
    and answers 200 with the authorization URL the remote side returns. *)
Theorem unauthorized_by_handler ev ctx (w : world S) c :
  carries ev c ->
  let m := session_client Cfg (db w) c in
  (forall fuel s,
     api R Mastodon.me m (ext w) = (err MastodonUnauthorizedError, s) ->
     info Cfg R fuel ev ctx w
     = (Ok (VDict [("statusCode", VInt 403);
                   ("body", VStr (json_dumps (VDict [("status", VStr "no_cookie")])))]),
        moved w s [DbGet c; Remote m Mastodon.me]))
  /\ (forall s redirect url s',
     api R Mastodon.me m (ext w) = (err MastodonUnauthorizedError, s) ->
     make_redirect_url ev = ok redirect ->
     api R (Mastodon.auth_request_url scopes_requested redirect) (config_mastodon Cfg) s
       = (ok url, s') ->
     auth Cfg R ev ctx w
     = (Ok (VDict [("statusCode", VInt 200);
                   ("body", VStr (json_dumps (VDict [("url", VStr url)])))]),
        moved w s' [DbGet c; Remote m Mastodon.me;
                    Remote (config_mastodon Cfg)
                      (Mastodon.auth_request_url scopes_requested redirect)])).
Proof.
  intros Hc m. split.
  - intros fuel s Hme. rewrite (info_early fuel ev ctx w c _ s Hc Hme). reflexivity.
  - intros s redirect url s' Hme Hr Hu.
    rewrite (auth_not_logged_in ev ctx w c _ s Hc Hme eq_refl).
    rewrite (bind_lift_ok _ _ _ _ Hr).
    assert (Hrun := remote_run R (config_mastodon Cfg) _
                      (moved w s [DbGet c; Remote m Mastodon.me]) _ _ Hu).
    rewrite (bind_Ok _ _ _ _ _ Hrun). unfold ret, moved. simpl.
    rewrite <- !app_assoc. reflexivity.
Qed.

End Unauthorized.

(** ** The handlers on the sample requests *)

Lemma sample_request_carries : carries Sample.request Sample.the_cookie.
Proof.
  exists ["list-manager-cookie=" +:+ Sample.the_cookie],
         {[ session_cookie := Sample.the_cookie ]}.
  repeat split; vm_compute; reflexivity.
Qed.

Lemma sample_query :
  query Sample.request "list_name" = ok "new"
  /\ query Sample.request "list_id" = ok "L1"
  /\ query Sample.request "account_id" = ok "2".
Proof. repeat split; vm_compute; reflexivity. Qed.

Lemma unauthorized_by_handler_witness :
  fst (info Sample.cfg Sample.rejecting 1 Sample.request tt Sample.world0)
    = Ok no_cookie_response
  /\ fst (auth Sample.cfg Sample.rejecting Sample.request tt Sample.world0)
    = Ok (response (json_dumps (VDict [("url", VStr "https://mock_redirect")])) 200).
Proof.
  destruct (unauthorized_by_handler Sample.cfg Sample.rejecting Sample.request tt
              Sample.world0 Sample.the_cookie sample_request_carries)
    as (H1 & H2).
  split.
  - rewrite (H1 1%nat tt eq_refl). reflexivity.
  - assert (Hr : make_redirect_url Sample.request
                 = ok "https://acbeers.github.io/mastodonlm/callback")
      by (vm_compute; reflexivity).
    rewrite (H2 tt _ "https://mock_redirect" tt eq_refl Hr eq_refl). reflexivity.
Defined.

(** C1 (counterexample): the session cookie is present and the remote API
    rejects its credentials with an unauthorized error, yet [auth] does not
    answer 403: it answers 200 with an authorization URL. *)
Lemma unauthorized_not_uniformly_403 :
  carries Sample.request Sample.the_cookie
  /\ session_client Sample.cfg (db Sample.world0) Sample.the_cookie = Sample.client0
  /\ api Sample.rejecting Mastodon.me Sample.client0 tt
     = (err MastodonUnauthorizedError, tt)
  /\ fst (auth Sample.cfg Sample.rejecting Sample.request tt Sample.world0)
     = Ok (VDict [("statusCode", VInt 200);
                  ("body", VStr (json_dumps (VDict [("url", VStr "https://mock_redirect")])))])
  /\ fst (auth Sample.cfg Sample.rejecting Sample.request tt Sample.world0)
     <> Ok no_cookie_response.
Proof.
  split; [exact sample_request_carries|].
  repeat split; try (vm_compute; reflexivity).
  vm_compute. intros [=].
Qed.

(** ** Pagination draining *)

Section Draining.

Context {W A : Type}.
Variable func : A -> option value -> M W page.
Variable args : A.

Lemma next_max_id_last (p : page) :
  pagination_next p = None -> next_max_id p = err AttributeError.
Proof. intros H. unfold next_max_id. rewrite H. reflexivity. Qed.

(** The last turn of the loop: the attribute is missing. *)
Lemma get_all_loop_last {V} (f : A -> option value -> M V page) fuel res p (v : V) :
  pagination_next p = None ->
  get_all_loop (Datatypes.S fuel) f args res p v = (Ok (res ++ items p), v).
Proof.
  intros H. simpl. unfold bind at 1, try_except.
  rewrite (bind_lift_err _ _ _ _ (next_max_id_last p H)). reflexivity.
Qed.

(** A turn of the loop that finds a cursor and fetches the next page. *)
Lemma get_all_loop_next {V} (f : A -> option value -> M V page) fuel res p c p' (v v' : V) :
  next_max_id p = ok c ->
  f args (Some c) v = (Ok p', v') ->
  get_all_loop (Datatypes.S fuel) f args res p v
  = get_all_loop fuel f args (res ++ items p) p' v'.
Proof.
  intros Hc Hf. simpl. unfold bind at 1, try_except.
  rewrite (bind_lift_ok _ _ _ _ Hc). rewrite (bind_Ok _ _ _ _ _ Hf). reflexivity.
Qed.

Lemma recording_run max_id w calls r w' :
  func args max_id w = (r, w') ->
  recording func args max_id (w, calls) = (r, (w', calls ++ [(args, max_id)])).
Proof. intros H. unfold recording. simpl. rewrite H. reflexivity. Qed.

Lemma cursor_next p c : next_max_id p = ok c -> cursor p = Some c.
Proof. intros H. unfold cursor. rewrite H. reflexivity. Qed.

Lemma yields_loop max_id w ps w' :
  yields func args max_id w ps w' ->
  exists p ps' w1,
    ps = p :: ps' /\ func args max_id w = (Ok p, w1) /\
    forall fuel res calls,
      (length ps <= fuel)%nat ->
      get_all_loop fuel (recording func) args res p (w1, calls)
      = (Ok (res ++ concat (map items ps)),
         (w', calls ++ map (fun q => (args, cursor q)) (removelast ps))).
Proof.
  induction 1 as [max_id w p w' Hf Hlast
                 | max_id w p c w1 ps w' Hf Hc Hrest (p0 & ps0 & w2 & -> & Hf0 & IH)].
  - exists p, [], w'. split; [reflexivity|]. split; [exact Hf|].
    intros [|fuel] res calls Hle; simpl in Hle; [lia|].
    rewrite (get_all_loop_last _ _ _ _ _ Hlast). simpl.
    rewrite !app_nil_r. reflexivity.
  - exists p, (p0 :: ps0), w1. split; [reflexivity|]. split; [exact Hf|].
    intros [|fuel] res calls Hle; simpl in Hle; [lia|].
    rewrite (get_all_loop_next _ fuel res p c p0 _ _ Hc (recording_run _ _ calls _ _ Hf0)).
    rewrite IH by (simpl; lia).
    change (removelast (p :: p0 :: ps0)) with (p :: removelast (p0 :: ps0)).
    simpl map. rewrite (cursor_next p c Hc).
    rewrite <- !app_assoc. reflexivity.
Qed.

Lemma length_removelast_cons {B} (x : B) l :
  length (removelast (x :: l)) = length l.
Proof.
  revert x. induction l as [|y l IH]; intros x; [reflexivity|].
  change (removelast (x :: y :: l)) with (x :: removelast (y :: l)).
  cbn [length]. f_equal. apply IH.
Qed.

Lemma get_all_yields ps w w' fuel calls :
  yields func args None w ps w' ->
  (length ps <= fuel)%nat ->
  get_all fuel (recording func) args (w, calls)
  = (Ok (concat (map items ps)),
     (w', calls ++ (args, None) :: map (fun q => (args, cursor q)) (removelast ps))).
Proof.
  intros Hy Hle. destruct (yields_loop _ _ _ _ Hy) as (p & ps' & w1 & -> & Hf & Hloop).
  unfold get_all. rewrite (bind_Ok _ _ _ _ _ (recording_run _ _ calls _ _ Hf)).
  rewrite (Hloop fuel [] _ Hle). rewrite <- app_assoc. reflexivity.
Qed.

End Draining.

Lemma stub_yields {A} (args : A) p1 p2 p3 c1 c2 :
  next_max_id p1 = ok c1 -> next_max_id p2 = ok c2 -> pagination_next p3 = None ->
  yields stub args None [p1; p2; p3] [p1; p2; p3] [].
Proof.
  intros H1 H2 H3.
  eapply yields_next; [reflexivity | exact H1 |].
  eapply yields_next; [reflexivity | exact H2 |].
  apply yields_last; [reflexivity | exact H3].
Qed.

(** C3: when the fetch returns the pages [ps] in turn, the last one alone
    lacking the cursor attribute, [get_all] returns the items of all the
    pages in order and calls the fetch once per page, first without
    [max_id] and then with the cursor of the page before; in particular a
    stub holding three pages is called exactly three times and the three
    pages are concatenated. *)
Theorem get_all_drains {W A} (func : A -> option value -> M W page) (args : A) :
  (forall ps w w' fuel calls,
     yields func args None w ps w' ->
     (length ps <= fuel)%nat ->
     let made := (args, None) :: map (fun q => (args, cursor q)) (removelast ps) in
     get_all fuel (recording func) args (w, calls)
       = (Ok (concat (map items ps)), (w', calls ++ made))
     /\ length made = length ps)
  /\ (forall p1 p2 p3 c1 c2 fuel,
     next_max_id p1 = ok c1 -> next_max_id p2 = ok c2 -> pagination_next p3 = None ->
     (3 <= fuel)%nat ->
     get_all fuel (recording stub) args ([p1; p2; p3], [])
       = (Ok (items p1 ++ items p2 ++ items p3),
          ([], [(args, None); (args, Some c1); (args, Some c2)]))).
Proof.
  split.
  - intros ps w w' fuel calls Hy Hle made. split.
    + apply get_all_yields; assumption.
    + unfold made. cbn [length]. rewrite length_map.
      destruct Hy; rewrite length_removelast_cons; reflexivity.
  - intros p1 p2 p3 c1 c2 fuel H1 H2 H3 Hle.
    rewrite (get_all_yields stub args _ _ _ fuel [] (stub_yields args _ _ _ _ _ H1 H2 H3))
      by exact Hle.
    simpl. rewrite (cursor_next _ _ H1), (cursor_next _ _ H2), app_nil_r. reflexivity.
Qed.

Lemma get_all_drains_witness :
  get_all 3 (recording stub) tt ([Sample.p1; Sample.p2; Sample.p3], [])
  = (Ok [Sample.A; Sample.B; Sample.C],
     ([], [(tt, None); (tt, Some (VInt 10)); (tt, Some (VInt 20))])).
Proof.
  destruct (get_all_drains (@stub unit) tt) as [_ H].
  exact (H Sample.p1 Sample.p2 Sample.p3 (VInt 10) (VInt 20) 3%nat
           eq_refl eq_refl eq_refl (le_n 3)).
Defined.

(** ** Reads and writes of the session table *)

Section Frame.

Context {S : Type}.
Variable Cfg : Config.
Variable R : outside S.

Local Abbreviation W := (world S).

Lemma writes_app l1 l2 : writes (l1 ++ l2) = writes l1 ++ writes l2.
Proof. apply List.filter_app. Qed.

Lemma reads_only_ret {A} (a : A) : reads_only (ret a : M W A).
Proof. intros w. split; reflexivity. Qed.

Lemma reads_only_raise {A} e : reads_only (raise e : M W A).
Proof. intros w. split; reflexivity. Qed.

Lemma reads_only_diverge {A} : reads_only (diverge : M W A).
Proof. intros w. split; reflexivity. Qed.

Lemma reads_only_lift {A} (r : result A) : reads_only (lift r : M W A).
Proof. destruct r; [apply reads_only_ret | apply reads_only_raise]. Qed.

Lemma reads_only_bind {A B} (m : M W A) (f : A -> M W B) :
  reads_only m -> (forall a, reads_only (f a)) -> reads_only (bind m f).
Proof.
  intros Hm Hf w. unfold bind. specialize (Hm w).
  destruct (m w) as [[a|e|] w1]; simpl in *; try exact Hm.
  destruct (Hf a w1) as [H1 H2]. destruct Hm as [H3 H4]. split; congruence.
Qed.

Lemma reads_only_try {A} (m : M W A) h :
  reads_only m ->
  (forall e, match h e with Some k => reads_only k | None => True end) ->
  reads_only (try_except m h).
Proof.
  intros Hm Hh w. unfold try_except. specialize (Hm w).
  destruct (m w) as [[a|e|] w1]; simpl in *; try exact Hm.
  specialize (Hh e). destruct (h e) as [k|]; simpl; [|exact Hm].
  destruct (Hh w1) as [H1 H2]. destruct Hm as [H3 H4]. split; congruence.
Qed.

Lemma reads_only_emit e : is_write e = false -> reads_only (emit e : M W unit).
Proof.
  intros He w. unfold emit. simpl. split; [reflexivity|].
  rewrite writes_app. unfold writes at 2. simpl. rewrite He. apply app_nil_r.
Qed.

Lemma reads_only_remote m c : reads_only (remote R m c).
Proof.
  intros w. unfold remote. destruct (api R c m (ext w)) as [[a|e] s]; simpl.
  all: split; [reflexivity|]; rewrite writes_app; apply app_nil_r.
Qed.

Lemma reads_only_get cookie : reads_only (Database.get cookie : M W (option session)).
Proof.
  intros w. unfold Database.get. destruct (db w !! cookie); simpl.
  all: split; [reflexivity|]; rewrite writes_app; apply app_nil_r.
Qed.

Lemma reads_only_get_mastodon cookie : reads_only (get_mastodon Cfg cookie : M W _).
Proof.
  unfold get_mastodon. apply reads_only_bind; [apply reads_only_get|].
  intros a. apply reads_only_ret.
Qed.

Lemma reads_only_get_all_loop {A} (func : A -> option value -> M W page) args :
  (forall max_id, reads_only (func args max_id)) ->
  forall fuel res p, reads_only (get_all_loop fuel func args res p).
Proof.
  intros Hf fuel. induction fuel as [|fuel IH]; intros res p; simpl.
  - apply reads_only_diverge.
  - apply reads_only_bind.
    + apply reads_only_try.
      * apply reads_only_bind; [apply reads_only_lift|]. intros c.
        apply reads_only_bind; [apply Hf|]. intros p'. apply reads_only_ret.
      * intros e. destruct (is_AttributeError e); [apply reads_only_ret | exact I].
    + intros [p'|]; [apply IH | apply reads_only_ret].
Qed.

Lemma reads_only_get_all {A} (func : A -> option value -> M W page) args fuel :
  (forall max_id, reads_only (func args max_id)) ->
  reads_only (get_all fuel func args).
Proof.
  intros Hf. unfold get_all. apply reads_only_bind; [apply Hf|].
  intros p. apply reads_only_get_all_loop. exact Hf.
Qed.

Lemma reads_only_join_lists fuel m fm ls :
  forall followers, reads_only (join_lists R fuel m fm ls followers).
Proof.
  induction ls as [|l ls IH]; intros followers; simpl.
  - apply reads_only_ret.
  - apply reads_only_bind; [apply reads_only_lift|]. intros lid.
    apply reads_only_bind.
    + apply reads_only_get_all. intros max_id.
      exact (reads_only_remote m (Mastodon.list_accounts lid max_id)).
    + intros accts. apply reads_only_bind; [apply reads_only_lift|]. intros fs. apply IH.
Qed.

(** One step of the proof that a handler only reads. *)
Ltac reads_only_step :=
  first
    [ apply reads_only_ret
    | apply reads_only_raise
    | apply reads_only_lift
    | match goal with
      | |- reads_only (remote _ ?m ?c) => exact (reads_only_remote m c)
      end
    | apply reads_only_get
    | apply reads_only_get_mastodon
    | apply reads_only_join_lists
    | apply reads_only_get_all; intros ?
    | apply reads_only_emit; reflexivity
    | apply reads_only_bind; [|intros ?]
    | apply reads_only_try; [|intros ?]
    | exact I
    | match goal with
      | |- reads_only (match ?x with _ => _ end) => destruct x
      | |- match (if ?b then _ else _) with _ => _ end => destruct b
      end ].

Lemma reads_only_info_body fuel cookie m me_ :
  reads_only (info_body R fuel cookie m me_).
Proof. unfold info_body. repeat reads_only_step. Qed.

Lemma reads_only_info fuel ev ctx : reads_only (info Cfg R fuel ev ctx).
Proof.
  unfold info. repeat reads_only_step.
Qed.

Lemma reads_only_auth ev ctx : reads_only (auth Cfg R ev ctx).
Proof. unfold auth, print. repeat reads_only_step. Qed.

Lemma reads_only_with_session ev (k : Mastodon.client -> M W value) :
  (forall m, reads_only (k m)) -> reads_only (with_session Cfg ev k).
Proof. intros Hk. unfold with_session. repeat reads_only_step. apply Hk. Qed.

Lemma reads_only_try_mutation m c : reads_only (try_mutation R m c).
Proof. unfold try_mutation. repeat reads_only_step. Qed.

Lemma callback_run ev ctx (w : W) code redirect opts tok s1 cookie s2 t s3 :
  query ev "code" = ok code ->
  make_redirect_url ev = ok redirect ->
  make_cookie_options ev = ok opts ->
  api R (Mastodon.log_in code redirect scopes_requested) (config_mastodon Cfg) (ext w)
    = (ok tok, s1) ->
  uuid4_urn R s1 = (cookie, s2) ->
  now R s2 = (t, s3) ->
  let it := {| token := tok; domain := "hachyderm.io";
               expires_at := Database.str_seconds (mktime R (t + 86400)) |} in
  callback Cfg R ev ctx w
  = (Ok (VDict [("statusCode", VInt 200);
                ("headers",
                 VDict [("Set-Cookie",
                         VStr ("list-manager-cookie=" +:+ cookie +:+ "; " +:+ opts
                               +:+ " Max-Age=" +:+ "86400"))]);
                ("body", VStr status_ok_body)]),
     Build_world (<[cookie := it]> (db w)) s3
       (log w ++ [Remote (config_mastodon Cfg)
                    (Mastodon.log_in code redirect scopes_requested);
                  DbPut cookie it])).
Proof.
  intros Hq Hr Ho Hl Hu Hn it. unfold callback.
  change (rbind (event_entry "queryStringParameters" (queryStringParameters ev))
            (fun q => map_entry q "code")) with (query ev "code").
  rewrite (bind_lift_ok _ _ _ _ Hq), (bind_lift_ok _ _ _ _ Hr), (bind_lift_ok _ _ _ _ Ho).
  rewrite (bind_Ok _ _ _ _ _ (remote_run R _ _ w _ _ Hl)).
  unfold bind, fresh_uuid_urn, Database.set, moved, ret. simpl.
  rewrite Hu. simpl. rewrite Hn. simpl. rewrite <- !app_assoc. reflexivity.
Qed.

Lemma callback_writes ev ctx (w : W) :
  let r := callback Cfg R ev ctx w in
  (db (snd r) = db w /\ writes (log (snd r)) = writes (log w))
  \/ (exists v cookie it,
        fst r = Ok v /\ db (snd r) = <[cookie := it]> (db w)
        /\ writes (log (snd r)) = writes (log w) ++ [DbPut cookie it]).
Proof.
  intros r. subst r. unfold callback.
  change (rbind (event_entry "queryStringParameters" (queryStringParameters ev))
            (fun q => map_entry q "code")) with (query ev "code").
  destruct (query ev "code") as [code|e]; [|left; split; reflexivity].
  destruct (make_redirect_url ev) as [redirect|e]; [|left; split; reflexivity].
  destruct (make_cookie_options ev) as [opts|e]; [|left; split; reflexivity].
  unfold bind, lift, ret, remote, fresh_uuid_urn, Database.set.
  destruct (api R (Mastodon.log_in code redirect scopes_requested) (config_mastodon Cfg) (ext w))
    as [[tok|e] s1]; simpl.
  - destruct (uuid4_urn R s1) as [cookie s2]. simpl.
    destruct (now R s2) as [t s3]. simpl.
    right. eexists _, cookie, _.
    split; [reflexivity|]. split; [reflexivity|].
    rewrite !writes_app. simpl. rewrite app_nil_r. reflexivity.
  - left. split; [reflexivity|]. rewrite writes_app. apply app_nil_r.
Qed.

(** C10: [info], [auth] and the four mutation handlers only read the
    session table: whatever the request and the outcome, the table is left
    as it was and no write is logged.  [callback] alone writes: when the
    token exchange succeeds it performs exactly one write, which stores the
    exchanged token under the freshly drawn cookie, and when it fails it
    writes nothing. *)
Theorem only_callback_writes ev ctx :
  (forall fuel, reads_only (info Cfg R fuel ev ctx))
  /\ reads_only (auth Cfg R ev ctx)
  /\ reads_only (create_list Cfg R ev ctx)
  /\ reads_only (delete_list Cfg R ev ctx)
  /\ reads_only (add_to_list Cfg R ev ctx)
  /\ reads_only (remove_from_list Cfg R ev ctx)
  /\ (forall (w : W) code redirect opts tok s1 cookie s2 t s3,
        query ev "code" = ok code ->
        make_redirect_url ev = ok redirect ->
        make_cookie_options ev = ok opts ->
        api R (Mastodon.log_in code redirect scopes_requested) (config_mastodon Cfg) (ext w)
          = (ok tok, s1) ->
        uuid4_urn R s1 = (cookie, s2) ->
        now R s2 = (t, s3) ->
        let r := callback Cfg R ev ctx w in
        let it := {| token := tok; domain := "hachyderm.io";
                     expires_at := Database.str_seconds (mktime R (t + 86400)) |} in
        (exists v, fst r = Ok v)
        /\ db (snd r) = <[cookie := it]> (db w)
        /\ writes (log (snd r)) = writes (log w) ++ [DbPut cookie it])
  /\ (forall w : W,
        let r := callback Cfg R ev ctx w in
        (db (snd r) = db w /\ writes (log (snd r)) = writes (log w))
        \/ (exists v cookie it,
              fst r = Ok v /\ db (snd r) = <[cookie := it]> (db w)
              /\ writes (log (snd r)) = writes (log w) ++ [DbPut cookie it])).
Proof.
  refine (conj _ (conj _ (conj _ (conj _ (conj _ (conj _ (conj _ _))))))).
  - intros fuel. apply reads_only_info.
  - apply reads_only_auth.
  - rewrite create_list_shape. apply reads_only_with_session. intros m.
    repeat reads_only_step; apply reads_only_try_mutation.
  - rewrite delete_list_shape. apply reads_only_with_session. intros m.
    repeat reads_only_step; apply reads_only_try_mutation.
  - rewrite add_to_list_shape. apply reads_only_with_session. intros m.
    repeat reads_only_step; apply reads_only_try_mutation.
  - rewrite remove_from_list_shape. apply reads_only_with_session. intros m.
    repeat reads_only_step; apply reads_only_try_mutation.
  - intros w code redirect opts tok s1 cookie s2 t s3 Hq Hr Ho Hl Hu Hn r it.
    subst r. rewrite (callback_run ev ctx w _ _ _ _ _ _ _ _ _ Hq Hr Ho Hl Hu Hn).
    simpl. split; [eexists; reflexivity|]. split; [reflexivity|].
    rewrite writes_app. reflexivity.
  - apply callback_writes.
Qed.

End Frame.

Lemma only_callback_writes_witness :
  db (snd (callback Sample.cfg Sample.serving Sample.request tt Sample.world0))
  = <[ "urn:uuid:0b0e2a3c-9d4f-4c1b-8a57-3f6f0c2d9e11" :=
         {| token := "token-1"; domain := "hachyderm.io"; expires_at := "1700086400.0" |} ]>
      Sample.table
  /\ writes (log (snd (callback Sample.cfg Sample.serving Sample.request tt Sample.world0)))
     = [DbPut "urn:uuid:0b0e2a3c-9d4f-4c1b-8a57-3f6f0c2d9e11"
          {| token := "token-1"; domain := "hachyderm.io"; expires_at := "1700086400.0" |}].
Proof.
  destruct (only_callback_writes Sample.cfg Sample.serving Sample.request tt)
    as (_ & _ & _ & _ & _ & _ & H & _).
  assert (Hq : query Sample.request "code" = ok "c0de") by (vm_compute; reflexivity).
  assert (Hr : make_redirect_url Sample.request
               = ok "https://acbeers.github.io/mastodonlm/callback")
    by (vm_compute; reflexivity).
  assert (Ho : make_cookie_options Sample.request
               = ok "Domain=amazonaws.com; SameSite=None; Secure; ")
    by (vm_compute; reflexivity).
  destruct (H Sample.world0 _ _ _ "token-1" tt _ tt 1700000000 tt Hq Hr Ho
              eq_refl eq_refl eq_refl) as (_ & Hdb & Hw).
  split; [exact Hdb | exact Hw].
Defined.

(** ** The membership join *)

Lemma dict_get_set_eq d k v : dict_get (dict_set d k v) k = Some v.
Proof.
  induction d as [|[k' v'] d IH]; simpl.
  - rewrite String.eqb_refl. reflexivity.
  - destruct (String.eqb k' k) eqn:E; simpl; rewrite E; [reflexivity | exact IH].
Qed.

Lemma dict_get_set_ne d k v k' : k <> k' -> dict_get (dict_set d k v) k' = dict_get d k'.
Proof.
  intros Hne. induction d as [|[k0 v0] d IH]; simpl.
  - destruct (String.eqb k k') eqn:E; [|reflexivity].
    apply String.eqb_eq in E. contradiction.
  - destruct (String.eqb k0 k) eqn:E; simpl.
    + apply String.eqb_eq in E. subst k0.
      destruct (String.eqb k k') eqn:E'; [|reflexivity].
      apply String.eqb_eq in E'. contradiction.
    + rewrite IH. reflexivity.
Qed.

Lemma dict_set_set d k v v' : dict_set (dict_set d k v) k v' = dict_set d k v'.
Proof.
  induction d as [|[k0 v0] d IH]; simpl.
  - rewrite String.eqb_refl. reflexivity.
  - destruct (String.eqb k0 k) eqn:E; simpl; rewrite E; [reflexivity|].
    rewrite IH. reflexivity.
Qed.

Lemma subscript_with_lists d ms k :
  k <> "lists" ->
  subscript (with_lists (VDict d) ms) k = subscript (VDict d) k.
Proof.
  intros Hne. simpl. rewrite dict_get_set_ne by congruence. reflexivity.
Qed.

Lemma account_key_with_lists x ms : account_key (with_lists x ms) = account_key x.
Proof.
  destruct x; try reflexivity. unfold account_key.
  rewrite subscript_with_lists by discriminate. reflexivity.
Qed.

Lemma account_is_dict x : is_Some (account_key x) -> exists d, x = VDict d.
Proof.
  intros [k Hk]. destruct x; try discriminate Hk. eauto.
Qed.

Lemma is_account_key x : is_account x = true -> is_Some (account_key x).
Proof.
  unfold is_account. intros H. apply andb_prop in H as [H _].
  destruct (account_key x); [eauto | discriminate].
Qed.

Lemma is_member_key x : is_member x = true -> is_Some (account_key x).
Proof. unfold is_member. destruct (account_key x); [eauto | discriminate]. Qed.

(** *** [mapM] and [foldM] *)

Lemma mapM_imap {A B} (f : A -> result B) (g : nat -> A -> A) (h : nat -> A -> B) l :
  (forall i x, l !! i = Some x -> f (g i x) = ok (h i x)) ->
  mapM f (imap g l) = ok (imap h l).
Proof.
  revert g h. induction l as [|a l IH]; intros g h H; simpl; [reflexivity|].
  rewrite (H 0%nat a eq_refl). simpl.
  rewrite (IH (g ∘ Datatypes.S) (h ∘ Datatypes.S)); [reflexivity|].
  intros i x Hi. apply (H (Datatypes.S i) x Hi).
Qed.

Lemma mapM_lookup {A B} (f : A -> result B) (h : nat -> A -> B) l :
  (forall i x, l !! i = Some x -> f x = ok (h i x)) ->
  mapM f l = ok (imap h l).
Proof.
  revert h. induction l as [|a l IH]; intros h H; simpl; [reflexivity|].
  rewrite (H 0%nat a eq_refl). simpl.
  rewrite (IH (h ∘ Datatypes.S)); [reflexivity|].
  intros i x Hi. apply (H (Datatypes.S i) x Hi).
Qed.

(** *** init_lists *)

Lemma init_lists_run followers :
  Forall (fun x => is_Some (account_key x)) followers ->
  init_lists followers = ok (imap (fun _ x => with_lists x []) followers).
Proof.
  intros H. unfold init_lists.
  apply mapM_lookup. intros i x Hi.
  rewrite Forall_lookup in H. destruct (account_is_dict x (H i x Hi)) as [d ->].
  reflexivity.
Qed.

(** *** make_followermap *)

Lemma make_followermap_run followers : forall i fm,
  Forall (fun x => is_Some (account_key x)) followers ->
  exists fm',
    make_followermap followers i fm = ok fm'
    /\ forall k, fm' !! k = last_with_key followers i k (fm !! k).
Proof.
  induction followers as [|x rest IH]; intros i fm H; simpl.
  - exists fm. split; [reflexivity|]. intros k. reflexivity.
  - apply Forall_cons in H as [[k0 Hk0] Hrest].
    unfold account_key in Hk0.
    destruct (subscript x "id") as [id|e] eqn:Hid; simpl in Hk0; [|discriminate].
    destruct (key_of id) as [k1|e] eqn:Hk; simpl in Hk0; [|discriminate].
    injection Hk0 as ->. simpl.
    destruct (IH (Datatypes.S i) (<[k0 := i]> fm) Hrest) as (fm' & Hrun & Hfm).
    exists fm'. split; [rewrite Hk; exact Hrun|].
    intros k. rewrite Hfm. f_equal.
    unfold account_key. rewrite Hid. simpl. rewrite Hk.
    destruct (decide (Some k0 = Some k)) as [[= ->]|Hne].
    + apply lookup_insert_eq.
    + apply lookup_insert_ne. congruence.
Qed.

Lemma last_with_key_bounds followers : forall i k found j,
  last_with_key followers i k found = Some j ->
  found = Some j
  \/ exists x, followers !! (j - i)%nat = Some x /\ (i <= j)%nat /\ account_key x = Some k.
Proof.
  induction followers as [|x rest IH]; intros i k found j; simpl.
  - intros H. left. exact H.
  - intros H. destruct (IH _ _ _ _ H) as [Hf | (y & Hy & Hle & Hk)].
    + destruct (decide (account_key x = Some k)) as [Hx|Hx].
      * injection Hf as <-. right. exists x. rewrite Nat.sub_diag. auto.
      * left. exact Hf.
    + right. exists y. split; [|split; [lia | exact Hk]].
      replace (j - i)%nat with (Datatypes.S (j - Datatypes.S i)) by lia. exact Hy.
Qed.

Lemma last_with_key_keys followers followers' : forall i k found,
  Forall2 (fun x y => account_key x = account_key y) followers followers' ->
  last_with_key followers i k found = last_with_key followers' i k found.
Proof.
  intros i k found H. revert i found.
  induction H as [|x y l l' Hxy _ IH]; intros i found; simpl; [reflexivity|].
  rewrite Hxy. apply IH.
Qed.

Lemma owner_bounds followers acct i :
  owner followers acct = Some i ->
  exists x, followers !! i = Some x /\ account_key x = account_key acct.
Proof.
  unfold owner. destruct (account_key acct) as [k|]; [|discriminate].
  intros H. destruct (last_with_key_bounds _ _ _ _ _ H) as [Hf | (x & Hx & _ & Hk)].
  - discriminate.
  - rewrite Nat.sub_0_r in Hx. eauto.
Qed.

(** *** The loop over the members of a list *)

Section Join.

Variable F : list value.
Variable fm : gmap key nat.
Hypothesis F_keys : Forall (fun x => is_Some (account_key x)) F.
Hypothesis fm_spec : forall k, fm !! k = last_with_key F 0 k None.

Lemma objects_ext acc acc' :
  (forall i, (i < length F)%nat -> acc i = acc' i) -> objects F acc = objects F acc'.
Proof.
  intros H. apply imap_ext. intros i x Hi.
  rewrite (H i); [reflexivity|]. apply lookup_lt_Some in Hi. exact Hi.
Qed.

Lemma join_acct_run l lid acc acct :
  subscript l "id" = ok lid ->
  is_Some (account_key acct) ->
  join_acct fm l (objects F acc) acct = ok (objects F (append_for F acct lid acc)).
Proof.
  intros Hl [k Hk].
  assert (Ho : owner F acct = fm !! k) by (unfold owner; rewrite Hk, fm_spec; reflexivity).
  unfold account_key in Hk.
  destruct (subscript acct "id") as [aid|e] eqn:Haid; simpl in Hk; [|discriminate].
  destruct (key_of aid) as [k'|e] eqn:Hkey; simpl in Hk; [|discriminate].
  injection Hk as ->.
  unfold join_acct. rewrite Haid. simpl. rewrite Hkey. simpl.
  destruct (fm !! k) as [i|] eqn:Hfm.
  - destruct (owner_bounds F acct i Ho) as (x & Hx & _).
    rewrite Forall_lookup in F_keys.
    destruct (account_is_dict x (F_keys i x Hx)) as [d ->].
    unfold objects at 1. rewrite list_lookup_imap, Hx. simpl.
    rewrite dict_get_set_eq, Hl. simpl. f_equal.
    rewrite dict_set_set.
    apply list_eq. intros j. unfold objects.
    destruct (decide (i = j)) as [<-|Hne].
    + rewrite list_lookup_insert_eq
        by (rewrite length_imap; apply lookup_lt_Some in Hx; exact Hx).
      rewrite list_lookup_imap, Hx. simpl. unfold append_for.
      rewrite Ho, bool_decide_eq_true_2 by reflexivity. reflexivity.
    + rewrite list_lookup_insert_ne by exact Hne.
      rewrite !list_lookup_imap. destruct (F !! j) as [y|]; [|reflexivity]. simpl.
      unfold append_for. rewrite Ho, bool_decide_eq_false_2 by congruence.
      rewrite app_nil_r. reflexivity.
  - f_equal. apply objects_ext. intros i _. unfold append_for.
    rewrite Ho, bool_decide_eq_false_2 by congruence. rewrite app_nil_r. reflexivity.
Qed.

Lemma join_accts_run l lid accts : forall acc,
  subscript l "id" = ok lid ->
  Forall (fun a => is_Some (account_key a)) accts ->
  foldM (join_acct fm l) accts (objects F acc)
  = ok (objects F (fun i =>
          acc i ++ flat_map (fun acct =>
                               if bool_decide (owner F acct = Some i) then [lid] else [])
                            accts)).
Proof.
  induction accts as [|acct accts IH]; intros acc Hl Ha; simpl.
  - f_equal. apply objects_ext. intros i _. rewrite app_nil_r. reflexivity.
  - apply Forall_cons in Ha as [Hacct Ha].
    rewrite (join_acct_run l lid acc acct Hl Hacct). simpl.
    rewrite (IH _ Hl Ha). f_equal. apply objects_ext. intros i _.
    unfold append_for. rewrite <- app_assoc. reflexivity.
Qed.

(** The loop over the lists: it fetches what [fetch_members] fetches and
    appends the memberships. *)
Lemma join_lists_run {S} (R : outside S) fuel m ls : forall membs acc (w w' : world S),
  fetch_members R fuel m ls w = (Ok membs, w') ->
  Forall (Forall (fun a => is_Some (account_key a))) membs ->
  join_lists R fuel m fm ls (objects F acc) w
  = (Ok (objects F (fun i => acc i ++ memberships F i ls membs)), w').
Proof.
  induction ls as [|l ls IH]; intros membs acc w w' Hf Hm; simpl in *.
  - injection Hf as <- <-. unfold ret. f_equal. f_equal.
    apply objects_ext. intros i _. unfold memberships, list_ids_where. simpl.
    rewrite app_nil_r. reflexivity.
  - destruct (subscript l "id") as [lid|e] eqn:Hl; [|discriminate Hf].
    rewrite (bind_lift_ok _ _ _ _ eq_refl) in Hf. rewrite (bind_lift_ok _ _ _ _ eq_refl).
    apply bind_inv_Ok in Hf as (accts & w1 & Hget & Hf).
    apply bind_inv_Ok in Hf as (more & w2 & Hrest & Hf).
    injection Hf as <- <-.
    apply Forall_cons in Hm as [Ha Hm].
    rewrite (bind_Ok _ _ _ _ _ Hget).
    rewrite (bind_lift_ok _ _ _ _ (join_accts_run l lid accts acc Hl Ha)).
    rewrite (IH more _ w1 w2 Hrest Hm). f_equal. f_equal.
    apply objects_ext. intros i _. unfold memberships, list_ids_where. simpl.
    rewrite Hl, <- app_assoc. reflexivity.
Qed.

End Join.

(** *** The emitted entries *)

Lemma has_field_subscript x k : has_field x k = true -> exists v, subscript x k = ok v.
Proof. unfold has_field. destruct (subscript x k); [eauto | discriminate]. Qed.

Lemma out_person_emitted x ms :
  is_account x = true ->
  exists o, emitted x ms = Some o /\ out_person (with_lists x ms) = ok o.
Proof.
  intros H. destruct (account_is_dict x (is_account_key x H)) as [d ->].
  unfold is_account in H. apply andb_prop in H as [Hk Hf].
  unfold account_key in Hk.
  destruct (subscript (VDict d) "id") as [id|e] eqn:Hid; simpl in Hk; [|discriminate].
  destruct (key_of id) as [k|e] eqn:Hkey; simpl in Hk; [|discriminate].
  cbn [forallb] in Hf.
  repeat (apply andb_prop in Hf as [?%has_field_subscript Hf]).
  repeat match goal with H : exists v, _ |- _ => destruct H as [? ?] end.
  unfold emitted, out_person, out_fields. cbn [mapM].
  rewrite (subscript_with_lists d ms "id"), (subscript_with_lists d ms "display_name"),
    (subscript_with_lists d ms "username"), (subscript_with_lists d ms "acct"),
    (subscript_with_lists d ms "note"), (subscript_with_lists d ms "avatar")
    by discriminate.
  assert (Hl : subscript (with_lists (VDict d) ms) "lists" = ok (VList ms))
    by (simpl; rewrite dict_get_set_eq; reflexivity).
  rewrite Hl.
  repeat match goal with H : subscript (VDict d) _ = ok _ |- _ => rewrite H; clear H end.
  simpl. eauto.
Qed.

Lemma outpeople_run F acc :
  Forall (fun x => is_account x = true) F ->
  exists outs,
    mapM out_person (objects F acc) = ok outs
    /\ length outs = length F
    /\ forall i x, F !! i = Some x ->
         exists o, outs !! i = Some o /\ emitted x (acc i) = Some o.
Proof.
  intros HF.
  exists (imap (fun i x => match emitted x (acc i) with Some o => o | None => VNone end) F).
  split; [|split].
  - unfold objects. apply mapM_imap. intros i x Hi.
    rewrite Forall_lookup in HF.
    destruct (out_person_emitted x (acc i) (HF i x Hi)) as (o & -> & Ho). exact Ho.
  - apply length_imap.
  - intros i x Hi. rewrite list_lookup_imap, Hi. simpl.
    rewrite Forall_lookup in HF.
    destruct (out_person_emitted x (acc i) (HF i x Hi)) as (o & Ho & _).
    rewrite Ho. eauto.
Qed.

(** *** The run of [info] *)

Section InfoRun.

Context {S : Type}.
Variable Cfg : Config.
Variable R : outside S.

Lemma reads_only_fetch_members fuel m ls : reads_only (fetch_members R fuel m ls).
Proof.
  induction ls as [|l ls IH]; simpl.
  - apply reads_only_ret.
  - apply reads_only_bind; [apply reads_only_lift|]. intros lid.
    apply reads_only_bind.
    + apply reads_only_get_all. intros max_id.
      exact (reads_only_remote R m (Mastodon.list_accounts lid max_id)).
    + intros accts. apply reads_only_bind; [exact IH|]. intros more. apply reads_only_ret.
Qed.

Lemma reads_only_run {A} (m : M (world S) A) w r w' :
  reads_only m -> m w = (r, w') -> db w' = db w.
Proof. intros H E. destruct (H w) as [Hdb _]. rewrite E in Hdb. exact Hdb. Qed.

Lemma served_db fuel ev (w : world S) cookie me_ F ls membs w' :
  served Cfg R fuel ev w cookie me_ F ls membs w' -> db w' = db w.
Proof.
  intros [_ (w1 & w2 & w3 & me_id & Hme & _ & Hfol & Hls & Hmem)].
  rewrite (reads_only_run _ _ _ _ (reads_only_fetch_members _ _ _) Hmem).
  rewrite (reads_only_run _ _ _ _ (reads_only_remote R _ Mastodon.lists) Hls).
  rewrite (reads_only_run _ _ _ _
             (reads_only_get_all _ _ _
                (fun max_id => reads_only_remote R _ (Mastodon.account_following _ max_id)))
             Hfol).
  rewrite (reads_only_run _ _ _ _ (reads_only_remote R _ Mastodon.me) Hme).
  reflexivity.
Qed.

(** What [info] answers when the remote side has served it. *)
Lemma info_run fuel ev ctx (w : world S) cookie me_ F ls membs w' username acct display_name :
  served Cfg R fuel ev w cookie me_ F ls membs w' ->
  Forall (fun x => is_account x = true) F ->
  Forall (Forall (fun a => is_member a = true)) membs ->
  subscript me_ "username" = ok username ->
  subscript me_ "acct" = ok acct ->
  subscript me_ "display_name" = ok display_name ->
  exists outs,
    info Cfg R fuel ev ctx w
    = (Ok (VStr (json_dumps
                   (info_output ls outs username
                      (py_str acct +:+ "@" +:+ stored_domain (db w) cookie) display_name))),
       logged w' [DbGet cookie])
    /\ length outs = length F
    /\ forall i x, F !! i = Some x ->
         exists o, outs !! i = Some o /\ emitted x (memberships F i ls membs) = Some o.
Proof.
  intros Hs HF Hm Hun Hac Hdn.
  pose proof (served_db _ _ _ _ _ _ _ _ _ Hs) as Hdb.
  destruct Hs as [Hc (w1 & w2 & w3 & me_id & Hme & Hid & Hfol & Hls & Hmem)].
  assert (HFk : Forall (fun x => is_Some (account_key x)) F).
  { eapply Forall_impl; [exact HF|]. intros x. apply is_account_key. }
  assert (Hmk : Forall (Forall (fun a => is_Some (account_key a))) membs).
  { eapply Forall_impl; [exact Hm|]. intros l Hl.
    eapply Forall_impl; [exact Hl|]. intros x. apply is_member_key. }
  destruct (make_followermap_run (imap (fun _ x => with_lists x []) F) 0 ∅)
    as (fm & Hfm & Hfm_spec).
  { rewrite Forall_lookup. intros i y Hy.
    rewrite list_lookup_imap in Hy. rewrite Forall_lookup in HFk.
    destruct (F !! i) as [x|] eqn:Hx; [|discriminate]. injection Hy as <-.
    rewrite account_key_with_lists. eapply HFk. exact Hx. }
  assert (Hspec : forall k, fm !! k = last_with_key F 0 k None).
  { intros k. rewrite Hfm_spec, lookup_empty. apply last_with_key_keys.
    apply Forall2_lookup. intros i. rewrite list_lookup_imap.
    destruct (F !! i) as [x|]; constructor. apply account_key_with_lists. }
  destruct (outpeople_run F (fun i => [] ++ memberships F i ls membs) HF)
    as (outs & Hout & Hlen & Hlook).
  exists outs. split; [|split; [exact Hlen | exact Hlook]].
  destruct (carries_default ev cookie Hc) as (jar & Hp & Hj).
  unfold info. rewrite (bind_lift_ok _ _ _ _ Hp). rewrite Hj.
  unfold bind at 1, try_except.
  rewrite (bind_Ok _ _ _ _ _ (get_mastodon_run Cfg cookie w)).
  rewrite (bind_Ok _ _ _ _ _ Hme).
  unfold ret at 1. cbv beta iota.
  unfold info_body.
  rewrite (bind_lift_ok _ _ _ _ Hid).
  rewrite (bind_Ok _ _ _ _ _ Hfol).
  rewrite (bind_lift_ok _ _ _ _ (init_lists_run F HFk)).
  rewrite (bind_lift_ok _ _ _ _ Hfm).
  rewrite (bind_Ok _ _ _ _ _ Hls).
  change (imap (fun _ x => with_lists x []) F) with (objects F (fun _ => [])).
  rewrite (bind_Ok _ _ _ _ _
             (join_lists_run F fm HFk Hspec R fuel _ ls membs (fun _ => []) w3 w' Hmem Hmk)).
  rewrite (bind_lift_ok _ _ _ _ Hout).
  unfold bind at 1, Database.get at 1. rewrite Hdb.
  unfold stored_domain, info_output, logged.
  destruct (db w !! cookie) as [it|]; simpl.
  all: rewrite (bind_lift_ok _ _ _ _ Hun), (bind_lift_ok _ _ _ _ Hac),
         (bind_lift_ok _ _ _ _ Hdn); rewrite Hdb; reflexivity.
Qed.

End InfoRun.

(** ** The output of [info] *)

Lemma last_with_key_found F : forall i k found,
  is_Some found -> is_Some (last_with_key F i k found).
Proof.
  induction F as [|x F IH]; intros i k found H; simpl; [exact H|].
  apply IH. destruct (decide (account_key x = Some k)); [eauto | exact H].
Qed.

Lemma last_with_key_exists F : forall i k found j x,
  F !! j = Some x -> account_key x = Some k ->
  is_Some (last_with_key F i k found).
Proof.
  induction F as [|y F IH]; intros i k found j x Hj Hk; [discriminate Hj|].
  simpl. destruct j as [|j]; simpl in Hj.
  - injection Hj as ->. apply last_with_key_found.
    rewrite decide_True by exact Hk. eauto.
  - eapply IH; eassumption.
Qed.

(** With distinct ids, [followermap] holds the follower [x] itself for
    exactly the members that have the id of [x]. *)
Lemma owner_NoDup F acct i x :
  NoDup (account_key <$> F) ->
  F !! i = Some x ->
  is_Some (account_key x) ->
  owner F acct = Some i <-> account_key acct = account_key x.
Proof.
  intros Hnd Hi [k Hk]. split.
  - intros Ho. destruct (owner_bounds F acct i Ho) as (y & Hy & Hyk).
    rewrite Hi in Hy. injection Hy as <-. symmetry. exact Hyk.
  - intros Ha. unfold owner. rewrite Ha, Hk.
    destruct (last_with_key_exists F 0 k None i x Hi Hk) as [j Hj].
    rewrite Hj. f_equal.
    destruct (last_with_key_bounds F 0 k None j Hj) as [Hf | (y & Hy & _ & Hyk)];
      [discriminate|].
    rewrite Nat.sub_0_r in Hy.
    eapply NoDup_lookup; [exact Hnd | |].
    + rewrite list_lookup_fmap, Hy. simpl. rewrite Hyk. reflexivity.
    + rewrite list_lookup_fmap, Hi. simpl. rewrite Hk. reflexivity.
Qed.

Lemma elem_of_memberships F i ls membs lid :
  lid ∈ memberships F i ls membs <->
  exists j l accts acct,
    ls !! j = Some l /\ membs !! j = Some accts /\ subscript l "id" = ok lid
    /\ acct ∈ accts /\ owner F acct = Some i.
Proof.
  unfold memberships, list_ids_where. rewrite list_elem_of_In, in_flat_map. split.
  - intros ([l accts] & Hin & Hlid). simpl in Hlid.
    apply list_elem_of_In, list_elem_of_lookup in Hin as [j Hj].
    apply lookup_zip_with_Some in Hj as (l' & accts' & [= <- <-] & Hl & Ha).
    destruct (subscript l "id") as [lid'|e] eqn:Hid; [|destruct Hlid].
    apply in_flat_map in Hlid as (acct & Hacct & Hlid).
    destruct (bool_decide (owner F acct = Some i)) eqn:Ho; [|destruct Hlid].
    destruct Hlid as [<-|[]].
    exists j, l, accts, acct. repeat split; try assumption.
    + apply list_elem_of_In. exact Hacct.
    + apply bool_decide_eq_true_1 in Ho. exact Ho.
  - intros (j & l & accts & acct & Hl & Ha & Hid & Hacct & Ho).
    exists (l, accts). split.
    + apply list_elem_of_In, list_elem_of_lookup. exists j.
      apply lookup_zip_with_Some. eauto 6.
    + simpl. rewrite Hid. apply in_flat_map. exists acct. split.
      * apply list_elem_of_In. exact Hacct.
      * rewrite bool_decide_eq_true_2 by exact Ho. left. reflexivity.
Qed.

Lemma emitted_fields x ms o :
  emitted x ms = Some o ->
  exists id dn un ac nt av,
    subscript x "id" = ok id
    /\ subscript x "display_name" = ok dn /\ subscript x "username" = ok un
    /\ subscript x "acct" = ok ac /\ subscript x "note" = ok nt
    /\ subscript x "avatar" = ok av
    /\ o = VDict [("id", VStr (py_str id)); ("lists", VList ms); ("display_name", dn);
                  ("username", un); ("acct", ac); ("note", nt); ("avatar", av)].
Proof.
  unfold emitted.
  destruct (subscript x "id") as [id|]; [|discriminate].
  destruct (subscript x "display_name") as [dn|]; [|discriminate].
  destruct (subscript x "username") as [un|]; [|discriminate].
  destruct (subscript x "acct") as [ac|]; [|discriminate].
  destruct (subscript x "note") as [nt|]; [|discriminate].
  destruct (subscript x "avatar") as [av|]; [|discriminate].
  intros [= <-]. exists id, dn, un, ac, nt, av. repeat split; reflexivity.
Qed.

Lemma sample_served :
  served Sample.cfg Sample.serving 2 Sample.request Sample.world0 Sample.the_cookie
    (Sample.mock_userdict 1 "me") [Sample.A; Sample.B] [Sample.L1; Sample.L2]
    [[Sample.A; Sample.C]; [Sample.B]]
    {| db := Sample.table; ext := tt; log := Sample.info_effects |}.
Proof.
  split; [exact sample_request_carries|].
  eexists _, _, _, _. repeat split; vm_compute; reflexivity.
Qed.

Lemma sample_accounts :
  Forall (fun x => is_account x = true) [Sample.A; Sample.B]
  /\ NoDup (account_key <$> [Sample.A; Sample.B])
  /\ Forall (Forall (fun a => is_member a = true)) [[Sample.A; Sample.C]; [Sample.B]].
Proof.
  split; [|split].
  - repeat constructor.
  - apply (bool_decide_unpack _). vm_compute. exact I.
  - repeat constructor.
Qed.

(** C4: for followed accounts with distinct ids, the entry emitted for
    each followed account lists exactly the ids of the lists one of whose
    members has the id of that account; members that are not followed raise
    no error, and the output has one entry per followed account and no
    other.  With A and B followed, L1 = {A, C} and L2 = {B}, the output
    shows A on L1, B on L2, and no entry for C. *)
Theorem info_membership_join :
  (forall S (Cfg : Config) (R : outside S) fuel ev ctx (w : world S) cookie me_ F ls membs w'
          username acct display_name,
     served Cfg R fuel ev w cookie me_ F ls membs w' ->
     Forall (fun x => is_account x = true) F ->
     NoDup (account_key <$> F) ->
     Forall (Forall (fun a => is_member a = true)) membs ->
     subscript me_ "username" = ok username ->
     subscript me_ "acct" = ok acct ->
     subscript me_ "display_name" = ok display_name ->
     exists outs summary,
       info Cfg R fuel ev ctx w
       = (Ok (VStr (json_dumps
                      (VDict [("lists", VList ls); ("followers", VList outs);
                              ("me", summary)]))),
          logged w' [DbGet cookie])
       /\ length outs = length F
       /\ forall i x, F !! i = Some x ->
            exists o id ms,
              outs !! i = Some o
              /\ subscript x "id" = ok id
              /\ subscript o "id" = ok (VStr (py_str id))
              /\ subscript o "lists" = ok (VList ms)
              /\ forall lid,
                   lid ∈ ms <->
                   exists j l accts member,
                     ls !! j = Some l /\ membs !! j = Some accts
                     /\ subscript l "id" = ok lid
                     /\ member ∈ accts /\ account_key member = account_key x)
  /\ fst (info Sample.cfg Sample.serving 2 Sample.request tt Sample.world0)
     = Ok (VStr (json_dumps
                   (VDict [("lists", VList [Sample.L1; Sample.L2]);
                           ("followers",
                            VList [Sample.emitted_user "123456789012345" "A" [VStr "L1"];
                                   Sample.emitted_user "2" "B" [VStr "L2"]]);
                           ("me", VDict [("username", VStr "me");
                                         ("acct", VStr "act-me@hachyderm.io");
                                         ("display_name", VStr "dn-me")])]))).
Proof.
  split; [|vm_compute; reflexivity].
  intros S Cfg R fuel ev ctx w cookie me_ F ls membs w' username acct display_name
    Hs HF Hnd Hm Hun Hac Hdn.
  destruct (info_run Cfg R fuel ev ctx w cookie me_ F ls membs w' _ _ _ Hs HF Hm Hun Hac Hdn)
    as (outs & Hrun & Hlen & Hlook).
  exists outs. eexists. split; [exact Hrun|]. split; [exact Hlen|].
  intros i x Hi. destruct (Hlook i x Hi) as (o & Ho & He).
  destruct (emitted_fields _ _ _ He)
    as (id & dn & un & ac & nt & av & Hid & _ & _ & _ & _ & _ & ->).
  eexists _, id, (memberships F i ls membs).
  split; [exact Ho|]. split; [exact Hid|].
  split; [reflexivity|]. split; [reflexivity|].
  intros lid. rewrite elem_of_memberships.
  rewrite Forall_lookup in HF.
  pose proof (is_account_key x (HF i x Hi)) as Hk.
  split.
  - intros (j & l & accts & a & Hl & Ha & Hlid & Hacct & Ho').
    exists j, l, accts, a. repeat split; try assumption.
    apply (owner_NoDup F a i x Hnd Hi Hk). exact Ho'.
  - intros (j & l & accts & a & Hl & Ha & Hlid & Hacct & Hkey).
    exists j, l, accts, a. repeat split; try assumption.
    apply (owner_NoDup F a i x Hnd Hi Hk). exact Hkey.
Qed.

Lemma info_membership_join_witness :
  exists outs summary,
    info Sample.cfg Sample.serving 2 Sample.request tt Sample.world0
    = (Ok (VStr (json_dumps
                   (VDict [("lists", VList [Sample.L1; Sample.L2]);
                           ("followers", VList outs); ("me", summary)]))),
       logged {| db := Sample.table; ext := tt; log := Sample.info_effects |}
         [DbGet Sample.the_cookie])
    /\ length outs = 2%nat.
Proof.
  destruct sample_accounts as (HF & Hnd & Hm).
  destruct info_membership_join as [H _].
  destruct (H unit Sample.cfg Sample.serving 2%nat Sample.request tt Sample.world0
              Sample.the_cookie _ _ _ _ _ (VStr "me") (VStr "act-me") (VStr "dn-me")
              sample_served HF Hnd Hm eq_refl eq_refl eq_refl)
    as (outs & summary & Hrun & Hlen & _).
  exists outs, summary. split; [exact Hrun | exact Hlen].
Defined.

(** C7: each followed account is emitted as a dict of exactly the fields
    id, lists, display_name, username, acct, note and avatar, the last five
    copied from the account, and an integer id is emitted as its decimal
    string: the id 123456789012345 as the string "123456789012345". *)
Theorem info_followers_fields {S} (Cfg : Config) (R : outside S) fuel ev ctx (w : world S)
    cookie me_ F ls membs w' username acct display_name :
  served Cfg R fuel ev w cookie me_ F ls membs w' ->
  Forall (fun x => is_account x = true) F ->
  Forall (Forall (fun a => is_member a = true)) membs ->
  subscript me_ "username" = ok username ->
  subscript me_ "acct" = ok acct ->
  subscript me_ "display_name" = ok display_name ->
  exists outs summary,
    info Cfg R fuel ev ctx w
    = (Ok (VStr (json_dumps
                   (VDict [("lists", VList ls); ("followers", VList outs);
                           ("me", summary)]))),
       logged w' [DbGet cookie])
    /\ length outs = length F
    /\ forall i x, F !! i = Some x ->
         exists fields,
           outs !! i = Some (VDict fields)
           /\ fields.*1 = ["id"; "lists"; "display_name"; "username"; "acct"; "note"; "avatar"]
           /\ (forall k, k ∈ ["display_name"; "username"; "acct"; "note"; "avatar"] ->
                 subscript (VDict fields) k = subscript x k)
           /\ (forall n, subscript x "id" = ok (VInt n) ->
                 subscript (VDict fields) "id" = ok (VStr (str_int n)))
           /\ (subscript x "id" = ok (VInt 123456789012345) ->
                 subscript (VDict fields) "id" = ok (VStr "123456789012345")).
Proof.
  intros Hs HF Hm Hun Hac Hdn.
  destruct (info_run Cfg R fuel ev ctx w cookie me_ F ls membs w' _ _ _ Hs HF Hm Hun Hac Hdn)
    as (outs & Hrun & Hlen & Hlook).
  exists outs. eexists. split; [exact Hrun|]. split; [exact Hlen|].
  intros i x Hi. destruct (Hlook i x Hi) as (o & Ho & He).
  destruct (emitted_fields _ _ _ He)
    as (id & dn & un & ac & nt & av & Hid & Hdn' & Hun' & Hac' & Hnt & Hav & ->).
  eexists. split; [exact Ho|]. split; [reflexivity|].
  assert (Hint : forall n, subscript x "id" = ok (VInt n) ->
            subscript
              (VDict [("id", VStr (py_str id));
                      ("lists", VList (memberships F i ls membs));
                      ("display_name", dn); ("username", un); ("acct", ac);
                      ("note", nt); ("avatar", av)]) "id" = ok (VStr (str_int n))).
  { intros n Hn. rewrite Hn in Hid. injection Hid as <-. reflexivity. }
  split; [|split; [exact Hint | intros Hn; exact (Hint _ Hn)]].
  intros k Hk. repeat (apply elem_of_cons in Hk as [->|Hk]); [..|inversion Hk].
  all: simpl; symmetry; assumption.
Qed.

Lemma info_followers_fields_witness :
  exists outs summary,
    info Sample.cfg Sample.serving 2 Sample.request tt Sample.world0
    = (Ok (VStr (json_dumps
                   (VDict [("lists", VList [Sample.L1; Sample.L2]);
                           ("followers", VList outs); ("me", summary)]))),
       logged {| db := Sample.table; ext := tt; log := Sample.info_effects |}
         [DbGet Sample.the_cookie])
    /\ exists fields,
         outs !! 0%nat = Some (VDict fields)
         /\ subscript (VDict fields) "id" = ok (VStr "123456789012345").
Proof.
  destruct sample_accounts as (HF & _ & Hm).
  destruct (info_followers_fields Sample.cfg Sample.serving 2%nat Sample.request tt
              Sample.world0 Sample.the_cookie _ _ _ _ _ (VStr "me") (VStr "act-me")
              (VStr "dn-me") sample_served HF Hm eq_refl eq_refl eq_refl)
    as (outs & summary & Hrun & _ & Hlook).
  exists outs, summary. split; [exact Hrun|].
  destruct (Hlook 0%nat Sample.A eq_refl) as (fields & Ho & _ & _ & _ & Hid).
  exists fields. split; [exact Ho | exact (Hid eq_refl)].
Defined.

(** C6 (as the code has it): the "me" summary holds the caller's username
    and display name and a handle made of the [acct] field of the caller's
    record, an [@], and the domain stored in the session entry of the
    cookie, or the empty string when there is no such entry. *)
Theorem info_me_summary {S} (Cfg : Config) (R : outside S) fuel ev ctx (w : world S)
    cookie me_ F ls membs w' username acct display_name :
  served Cfg R fuel ev w cookie me_ F ls membs w' ->
  Forall (fun x => is_account x = true) F ->
  Forall (Forall (fun a => is_member a = true)) membs ->
  subscript me_ "username" = ok username ->
  subscript me_ "acct" = ok acct ->
  subscript me_ "display_name" = ok display_name ->
  exists outs dom,
    info Cfg R fuel ev ctx w
    = (Ok (VStr (json_dumps
                   (VDict [("lists", VList ls); ("followers", VList outs);
                           ("me", VDict [("username", username);
                                         ("acct", VStr (py_str acct +:+ "@" +:+ dom));
                                         ("display_name", display_name)])]))),
       logged w' [DbGet cookie])
    /\ (forall it, db w !! cookie = Some it -> dom = domain it)
    /\ (db w !! cookie = None -> dom = "").
Proof.
  intros Hs HF Hm Hun Hac Hdn.
  destruct (info_run Cfg R fuel ev ctx w cookie me_ F ls membs w' _ _ _ Hs HF Hm Hun Hac Hdn)
    as (outs & Hrun & _).
  exists outs, (stored_domain (db w) cookie). split; [exact Hrun|].
  unfold stored_domain. split.
  - intros it ->. reflexivity.
  - intros ->. reflexivity.
Qed.

Lemma info_me_summary_witness :
  exists outs,
    info Sample.cfg Sample.serving 2 Sample.request tt Sample.world0
    = (Ok (VStr (json_dumps
                   (VDict [("lists", VList [Sample.L1; Sample.L2]);
                           ("followers", VList outs);
                           ("me", VDict [("username", VStr "me");
                                         ("acct", VStr "act-me@hachyderm.io");
                                         ("display_name", VStr "dn-me")])]))),
       logged {| db := Sample.table; ext := tt; log := Sample.info_effects |}
         [DbGet Sample.the_cookie]).
Proof.
  destruct sample_accounts as (HF & _ & Hm).
  destruct (info_me_summary Sample.cfg Sample.serving 2%nat Sample.request tt
              Sample.world0 Sample.the_cookie _ _ _ _ _ (VStr "me") (VStr "act-me")
              (VStr "dn-me") sample_served HF Hm eq_refl eq_refl eq_refl)
    as (outs & dom & Hrun & Hdom & _).
  exists outs. rewrite Hrun.
  rewrite (Hdom {| token := "tok"; domain := "hachyderm.io";
                   expires_at := "1700000000.0" |}) by (vm_compute; reflexivity).
  reflexivity.
Defined.

(** C6 (counterexample): the caller's record has username [me] and acct
    [act-me], and the session entry holds the domain [hachyderm.io]; the
    handle emitted is [act-me@hachyderm.io], not [me@hachyderm.io]. *)
Lemma info_handle_not_username :
  subscript (Sample.mock_userdict 1 "me") "username" = ok (VStr "me")
  /\ stored_domain Sample.table Sample.the_cookie = "hachyderm.io"
  /\ fst (info Sample.cfg Sample.serving 2 Sample.request tt Sample.world0)
     = Ok (VStr (json_dumps
                   (info_output [Sample.L1; Sample.L2]
                      [Sample.emitted_user "123456789012345" "A" [VStr "L1"];
                       Sample.emitted_user "2" "B" [VStr "L2"]]
                      (VStr "me") "act-me@hachyderm.io" (VStr "dn-me"))))
  /\ fst (info Sample.cfg Sample.serving 2 Sample.request tt Sample.world0)
     <> Ok (VStr (json_dumps
                   (info_output [Sample.L1; Sample.L2]
                      [Sample.emitted_user "123456789012345" "A" [VStr "L1"];
                       Sample.emitted_user "2" "B" [VStr "L2"]]
                      (VStr "me") ("me" +:+ "@" +:+ "hachyderm.io") (VStr "dn-me")))).
Proof.
  repeat split; try (vm_compute; reflexivity).
  vm_compute. intros [=].
Qed.

(** ** More on the cookies *)

Lemma parse_cookie_pair res cookie :
  parse_cookie res cookie
  = match cookie_pair cookie with
    | Some (name, val) => ok (<[name := val]> res)
    | None => err ValueError
    end.
Proof.
  unfold parse_cookie, cookie_pair, first_part.
  destruct (str_split_cons ";" cookie) as (first & rest & ->).
  destruct (str_split "=" first) as [|a [|b [|c l]]]; reflexivity.
Qed.

Lemma cookie_pair_occurrences cookie :
  is_Some (cookie_pair cookie) <-> occurrences "=" (first_part cookie) = 1%nat.
Proof.
  unfold cookie_pair. pose proof (length_str_split "=" (first_part cookie)) as H.
  destruct (str_split "=" (first_part cookie)) as [|a [|b [|c l]]]; simpl in H.
  - lia.
  - split; [intros [? [=]] | lia].
  - split; [lia | eauto].
  - split; [intros [? [=]] | lia].
Qed.

Lemma parse_cookies_from_app l1 l2 : forall res,
  parse_cookies_from res (l1 ++ l2)
  = rbind (parse_cookies_from res l1) (fun jar => parse_cookies_from jar l2).
Proof.
  induction l1 as [|c l1 IH]; intros res; simpl; [reflexivity|].
  destruct (parse_cookie res c) as [jar|e]; simpl; [apply IH | reflexivity].
Qed.

Lemma parse_cookies_from_outcome l : forall res,
  match parse_cookies_from res l with
  | ok _ => Forall (fun c => is_Some (cookie_pair c)) l
  | err e => e = ValueError /\ Exists (fun c => cookie_pair c = None) l
  end.
Proof.
  induction l as [|c l IH]; intros res; simpl; [constructor|].
  rewrite parse_cookie_pair.
  destruct (cookie_pair c) as [[name val]|] eqn:Hc; simpl.
  - specialize (IH (<[name := val]> res)).
    destruct (parse_cookies_from (<[name:=val]> res) l) as [jar|e].
    + constructor; [rewrite Hc; eauto | exact IH].
    + destruct IH as [-> IH]. split; [reflexivity|]. apply Exists_cons_tl. exact IH.
  - split; [reflexivity|]. apply Exists_cons_hd. exact Hc.
Qed.

(** X1: [parse_cookies] returns a dict exactly when the part before the
    first [;] of every cookie holds exactly one [=]; otherwise the exception
    it raises is [ValueError], whatever the other cookies are. *)
Theorem parse_cookies_outcome l :
  match parse_cookies l with
  | ok _ => Forall (fun c => occurrences "=" (first_part c) = 1%nat) l
  | err e =>
      e = ValueError /\ Exists (fun c => occurrences "=" (first_part c) <> 1%nat) l
  end.
Proof.
  unfold parse_cookies. pose proof (parse_cookies_from_outcome l ∅) as H.
  destruct (parse_cookies_from ∅ l) as [jar|e].
  - eapply Forall_impl; [exact H|]. intros c. apply cookie_pair_occurrences.
  - destruct H as [-> H]. split; [reflexivity|].
    eapply Exists_impl; [exact H|]. intros c Hc Ho.
    apply cookie_pair_occurrences in Ho as [? Ho]. congruence.
Qed.

Lemma parse_cookies_from_lookup l : forall res jar name val,
  parse_cookies_from res l = ok jar ->
  jar !! name = Some val <->
  (exists i c, l !! i = Some c /\ cookie_pair c = Some (name, val)
     /\ forall j c' v', (i < j)%nat -> l !! j = Some c' -> cookie_pair c' <> Some (name, v'))
  \/ (res !! name = Some val
      /\ forall j c' v', l !! j = Some c' -> cookie_pair c' <> Some (name, v')).
Proof.
  induction l as [|c l IH]; intros res jar name val; simpl.
  - intros [= <-]. split.
    + intros H. right. split; [exact H|]. intros j c' v' Hj. discriminate Hj.
    + intros [(i & c & Hi & _) | [H _]]; [discriminate Hi | exact H].
  - rewrite parse_cookie_pair.
    destruct (cookie_pair c) as [[n v]|] eqn:Hc; simpl; [|intros [=]].
    intros Hp. rewrite (IH _ _ name val Hp). split.
    + intros [(i & c0 & Hi & Hc0 & Hlast) | [Hres Hnone]].
      * left. exists (Datatypes.S i), c0. split; [exact Hi|]. split; [exact Hc0|].
        intros [|j] c' v' Hlt Hj; [lia|]. apply (Hlast j c' v'); [lia | exact Hj].
      * destruct (decide (n = name)) as [->|Hne].
        -- rewrite lookup_insert_eq in Hres. injection Hres as ->.
           left. exists 0%nat, c. split; [reflexivity|]. split; [exact Hc|].
           intros [|j] c' v' Hlt Hj; [lia|]. apply (Hnone j c' v' Hj).
        -- rewrite lookup_insert_ne in Hres by exact Hne.
           right. split; [exact Hres|].
           intros [|j] c' v' Hj; simpl in Hj.
           ++ injection Hj as <-. rewrite Hc. congruence.
           ++ apply (Hnone j c' v' Hj).
    + intros [(i & c0 & Hi & Hc0 & Hlast) | [Hres Hnone]].
      * destruct i as [|i]; simpl in Hi.
        -- injection Hi as <-. rewrite Hc in Hc0. injection Hc0 as -> ->.
           right. split; [apply lookup_insert_eq|].
           intros j c' v' Hj. apply (Hlast (Datatypes.S j) c' v'); [lia | exact Hj].
        -- left. exists i, c0. split; [exact Hi|]. split; [exact Hc0|].
           intros j c' v' Hlt Hj. apply (Hlast (Datatypes.S j) c' v'); [lia | exact Hj].
      * right. split.
        -- rewrite lookup_insert_ne; [exact Hres|].
           intros ->. apply (Hnone 0%nat c v eq_refl). exact Hc.
        -- intros j c' v' Hj. apply (Hnone (Datatypes.S j) c' v' Hj).
Qed.

(** X2: in the dict [parse_cookies] returns, a name is bound to the value
    of the last cookie of that name: what follows the first [;] of a cookie
    is ignored, and a later cookie overrides an earlier one of the same
    name. *)
Theorem parse_cookies_lookup l jar name val :
  parse_cookies l = ok jar ->
  jar !! name = Some val <->
  exists i c,
    l !! i = Some c /\ cookie_pair c = Some (name, val)
    /\ forall j c' v', (i < j)%nat -> l !! j = Some c' -> cookie_pair c' <> Some (name, v').
Proof.
  intros Hp. rewrite (parse_cookies_from_lookup l ∅ jar name val Hp). split.
  - intros [H | [H _]]; [exact H | rewrite lookup_empty in H; discriminate H].
  - intros H. left. exact H.
Qed.

Lemma parse_cookies_lookup_witness :
  exists jar,
    parse_cookies ["theme=dark; Path=/"; "theme=light"] = ok jar
    /\ jar !! "theme" = Some "light".
Proof.
  exists {[ "theme" := "light" ]}.
  assert (Hp : parse_cookies ["theme=dark; Path=/"; "theme=light"]
               = ok {[ "theme" := "light" ]}) by (vm_compute; reflexivity).
  split; [exact Hp|].
  apply (parse_cookies_lookup _ _ "theme" "light" Hp).
  exists 1%nat, "theme=light". split; [reflexivity|]. split; [vm_compute; reflexivity|].
  intros [|[|j]] c' v' Hlt Hj; try lia. discriminate Hj.
Defined.

Lemma str_split_parts_le c sep s :
  Forall (fun p => (occurrences c p <= occurrences c s)%nat) (str_split sep s).
Proof.
  induction s as [|a s IH]; simpl.
  - repeat constructor.
  - destruct (str_split_cons sep s) as (x & xs & E). rewrite E in *.
    apply Forall_cons in IH as [Hx Hxs].
    destruct (Ascii.eqb a sep).
    + constructor; [simpl; lia|]. constructor.
      * lia.
      * eapply Forall_impl; [exact Hxs|]. intros p Hp. simpl in Hp. lia.
    + constructor; [simpl; lia|].
      eapply Forall_impl; [exact Hxs|]. intros p Hp. simpl in Hp. lia.
Qed.

Lemma str_split_parts_no_sep sep s :
  Forall (fun p => occurrences sep p = 0%nat) (str_split sep s).
Proof.
  induction s as [|a s IH]; simpl.
  - repeat constructor.
  - destruct (str_split_cons sep s) as (x & xs & E). rewrite E in *.
    apply Forall_cons in IH as [Hx Hxs].
    destruct (Ascii.eqb a sep) eqn:Ha.
    + constructor; [reflexivity|]. constructor; assumption.
    + constructor; [simpl; rewrite Ha; exact Hx | exact Hxs].
Qed.

Lemma first_part_no_semicolon cookie : occurrences ";" (first_part cookie) = 0%nat.
Proof.
  unfold first_part. pose proof (str_split_parts_no_sep ";" cookie) as H.
  destruct (str_split ";" cookie) as [|first rest]; [reflexivity|].
  apply Forall_cons in H as [H _]. exact H.
Qed.

Lemma cookie_pair_clean cookie name val :
  cookie_pair cookie = Some (name, val) ->
  occurrences "=" name = 0%nat /\ occurrences ";" name = 0%nat
  /\ occurrences "=" val = 0%nat /\ occurrences ";" val = 0%nat.
Proof.
  unfold cookie_pair. intros H.
  pose proof (str_split_parts_no_sep "=" (first_part cookie)) as Heq.
  pose proof (str_split_parts_le ";" "=" (first_part cookie)) as Hsc.
  rewrite first_part_no_semicolon in Hsc.
  destruct (str_split "=" (first_part cookie)) as [|a [|b [|c l]]]; try discriminate H.
  injection H as -> ->.
  apply Forall_cons in Heq as [Ha Heq]. apply Forall_cons in Heq as [Hb _].
  apply Forall_cons in Hsc as [Ha' Hsc]. apply Forall_cons in Hsc as [Hb' _].
  repeat split; lia.
Qed.

(** X3: no name and no value of the dict [parse_cookies] returns holds an
    [=] or a [;]. *)
Theorem parse_cookies_clean l jar name val :
  parse_cookies l = ok jar ->
  jar !! name = Some val ->
  occurrences "=" name = 0%nat /\ occurrences ";" name = 0%nat
  /\ occurrences "=" val = 0%nat /\ occurrences ";" val = 0%nat.
Proof.
  intros Hp Hl.
  apply (parse_cookies_from_lookup l ∅ jar name val Hp) in Hl
    as [(i & c & _ & Hc & _) | [H _]].
  - exact (cookie_pair_clean c name val Hc).
  - rewrite lookup_empty in H. discriminate H.
Qed.

Lemma parse_cookies_clean_witness :
  occurrences "=" "dark" = 0%nat /\ occurrences ";" "dark" = 0%nat.
Proof.
  assert (Hp : parse_cookies ["theme=dark; Path=/"] = ok {[ "theme" := "dark" ]})
    by (vm_compute; reflexivity).
  destruct (parse_cookies_clean _ _ "theme" "dark" Hp) as (_ & _ & H1 & H2).
  - vm_compute. reflexivity.
  - split; [exact H1 | exact H2].
Defined.

Lemma str_split_none sep s : occurrences sep s = 0%nat -> str_split sep s = [s].
Proof.
  induction s as [|a s IH]; simpl; [reflexivity|].
  destruct (Ascii.eqb a sep); [discriminate|]. intros H. rewrite (IH H). reflexivity.
Qed.

Lemma str_split_append sep a b :
  occurrences sep a = 0%nat ->
  str_split sep (a +:+ String sep b) = a :: str_split sep b.
Proof.
  induction a as [|x a IH]; simpl.
  - intros _. rewrite Ascii.eqb_refl. reflexivity.
  - destruct (Ascii.eqb x sep); [discriminate|]. intros H. rewrite (IH H). reflexivity.
Qed.

Lemma session_pair_split cookie :
  occurrences "=" cookie = 0%nat ->
  str_split "=" ("list-manager-cookie=" +:+ cookie) = [session_cookie; cookie].
Proof.
  intros He.
  change ("list-manager-cookie=" +:+ cookie)
    with ("list-manager-cookie" +:+ String "=" cookie).
  rewrite (str_split_append "=" "list-manager-cookie" cookie eq_refl).
  rewrite (str_split_none "=" cookie He). reflexivity.
Qed.

Lemma cookie_pair_session cookie rest :
  occurrences ";" cookie = 0%nat -> occurrences "=" cookie = 0%nat ->
  cookie_pair ("list-manager-cookie=" +:+ cookie +:+ String ";" rest)
  = Some (session_cookie, cookie).
Proof.
  intros Hs He. unfold cookie_pair, first_part.
  change ("list-manager-cookie=" +:+ cookie +:+ String ";" rest)
    with (("list-manager-cookie=" +:+ cookie) +:+ String ";" rest).
  rewrite (str_split_append ";" ("list-manager-cookie=" +:+ cookie) rest Hs).
  rewrite (session_pair_split cookie He). reflexivity.
Qed.

Lemma cookie_pair_bare cookie :
  occurrences ";" cookie = 0%nat -> occurrences "=" cookie = 0%nat ->
  cookie_pair ("list-manager-cookie=" +:+ cookie) = Some (session_cookie, cookie).
Proof.
  intros Hs He. unfold cookie_pair, first_part.
  rewrite (str_split_none ";" ("list-manager-cookie=" +:+ cookie) Hs).
  rewrite (session_pair_split cookie He). reflexivity.
Qed.

(** ** Logging in *)

Section Login.

Context {S : Type}.
Variable Cfg : Config.
Variable R : outside S.

(** X4: the [Set-Cookie] header [callback] answers with, parsed by
    [parse_cookies], gives back the minted cookie under the session cookie
    name, and so does the bare name and value a browser sends back, as long
    as the minted cookie holds no [;] and no [=]. *)
Theorem callback_cookie_round_trip ev ctx (w : world S) code redirect opts tok s1 cookie s2 t s3 :
  query ev "code" = ok code ->
  make_redirect_url ev = ok redirect ->
  make_cookie_options ev = ok opts ->
  api R (Mastodon.log_in code redirect scopes_requested) (config_mastodon Cfg) (ext w)
    = (ok tok, s1) ->
  uuid4_urn R s1 = (cookie, s2) ->
  now R s2 = (t, s3) ->
  occurrences ";" cookie = 0%nat ->
  occurrences "=" cookie = 0%nat ->
  exists resp h,
    fst (callback Cfg R ev ctx w) = Ok resp
    /\ rbind (subscript resp "headers") (fun hs => subscript hs "Set-Cookie") = ok (VStr h)
    /\ parse_cookies [h] = ok {[ session_cookie := cookie ]}
    /\ parse_cookies ["list-manager-cookie=" +:+ cookie] = ok {[ session_cookie := cookie ]}.
Proof.
  intros Hq Hr Ho Hl Hu Hn Hs He.
  eexists _, _. rewrite (callback_run Cfg R ev ctx w _ _ _ _ _ _ _ _ _ Hq Hr Ho Hl Hu Hn).
  split; [reflexivity|]. split; [reflexivity|]. split.
  - unfold parse_cookies. simpl parse_cookies_from. rewrite parse_cookie_pair.
    change ("list-manager-cookie=" +:+ cookie +:+ "; " +:+ opts +:+ " Max-Age=" +:+ "86400")
      with ("list-manager-cookie=" +:+ cookie
            +:+ String ";" (String " " (opts +:+ " Max-Age=" +:+ "86400"))).
    rewrite (cookie_pair_session cookie _ Hs He). reflexivity.
  - unfold parse_cookies. simpl parse_cookies_from. rewrite parse_cookie_pair.
    rewrite (cookie_pair_bare cookie Hs He). reflexivity.
Qed.

(** X5: after a [callback] whose token exchange succeeds, the session of
    the minted cookie resolves: [get_mastodon] builds for it a client whose
    access token is the exchanged token, the domain stored for it is
    [hachyderm.io], and the entries of the other cookies are as before. *)
Theorem callback_then_get_mastodon ev ctx (w : world S) code redirect opts tok s1 cookie s2 t s3 :
  query ev "code" = ok code ->
  make_redirect_url ev = ok redirect ->
  make_cookie_options ev = ok opts ->
  api R (Mastodon.log_in code redirect scopes_requested) (config_mastodon Cfg) (ext w)
    = (ok tok, s1) ->
  uuid4_urn R s1 = (cookie, s2) ->
  now R s2 = (t, s3) ->
  let w' := snd (callback Cfg R ev ctx w) in
  fst (get_mastodon Cfg cookie w')
    = Ok {| Mastodon.client_id := client_id Cfg;
            Mastodon.client_secret := client_secret Cfg;
            Mastodon.access_token := Some tok;
            Mastodon.api_base_url := "https://hachyderm.io" |}
  /\ stored_domain (db w') cookie = "hachyderm.io"
  /\ forall other, other <> cookie -> db w' !! other = db w !! other.
Proof.
  intros Hq Hr Ho Hl Hu Hn w'. subst w'.
  rewrite (callback_run Cfg R ev ctx w _ _ _ _ _ _ _ _ _ Hq Hr Ho Hl Hu Hn).
  rewrite get_mastodon_run. unfold session_client, stored_domain. simpl.
  rewrite lookup_insert_eq. simpl.
  split; [reflexivity|]. split; [reflexivity|].
  intros other Hne. apply lookup_insert_ne. congruence.
Qed.

End Login.

Lemma sample_callback_inputs :
  query Sample.request "code" = ok "c0de"
  /\ make_redirect_url Sample.request = ok "https://acbeers.github.io/mastodonlm/callback"
  /\ make_cookie_options Sample.request = ok "Domain=amazonaws.com; SameSite=None; Secure; ".
Proof. repeat split; vm_compute; reflexivity. Qed.

Lemma callback_cookie_round_trip_witness :
  parse_cookies ["list-manager-cookie=urn:uuid:0b0e2a3c-9d4f-4c1b-8a57-3f6f0c2d9e11"]
  = ok {[ session_cookie := "urn:uuid:0b0e2a3c-9d4f-4c1b-8a57-3f6f0c2d9e11" ]}.
Proof.
  destruct sample_callback_inputs as (Hq & Hr & Ho).
  destruct (callback_cookie_round_trip Sample.cfg Sample.serving Sample.request tt
              Sample.world0 _ _ _ "token-1" tt _ tt 1700000000 tt Hq Hr Ho
              eq_refl eq_refl eq_refl eq_refl eq_refl) as (resp & h & _ & _ & _ & H).
  exact H.
Defined.

Lemma callback_then_get_mastodon_witness :
  fst (get_mastodon Sample.cfg "urn:uuid:0b0e2a3c-9d4f-4c1b-8a57-3f6f0c2d9e11"
         (snd (callback Sample.cfg Sample.serving Sample.request tt Sample.world0)))
  = Ok {| Mastodon.client_id := "id";
          Mastodon.client_secret := "secret";
          Mastodon.access_token := Some "token-1";
          Mastodon.api_base_url := "https://hachyderm.io" |}.
Proof.
  destruct sample_callback_inputs as (Hq & Hr & Ho).
  destruct (callback_then_get_mastodon Sample.cfg Sample.serving Sample.request tt
              Sample.world0 _ _ _ "token-1" tt _ tt 1700000000 tt Hq Hr Ho
              eq_refl eq_refl eq_refl) as (H & _).
  exact H.
Defined.

(** ** The cookie options and the redirect target *)

Lemma length_append a b :
  String.length (a +:+ b) = (String.length a + String.length b)%nat.
Proof. induction a as [|c a IH]; simpl; [reflexivity | rewrite IH; reflexivity]. Qed.

Lemma substring_all s : String.substring 0 (String.length s) s = s.
Proof. induction s as [|c s IH]; simpl; [reflexivity | rewrite IH; reflexivity]. Qed.

Lemma substring_skip a b n :
  String.substring (String.length a) n (a +:+ b) = String.substring 0 n b.
Proof. induction a as [|c a IH]; simpl; [reflexivity | exact IH]. Qed.

Lemma last_chars_append p suffix :
  last_chars (String.length suffix) (p +:+ suffix) = suffix.
Proof.
  unfold last_chars. rewrite length_append.
  replace (String.length p + String.length suffix - String.length suffix)%nat
    with (String.length p) by lia.
  rewrite substring_skip. apply substring_all.
Qed.

Lemma substring_short n s :
  (String.length s <= n)%nat -> String.substring 0 n s = s.
Proof.
  revert n. induction s as [|c s IH]; intros [|n] H; simpl in *; try reflexivity; try lia.
  rewrite IH by lia. reflexivity.
Qed.

Lemma last_chars_short n s : (String.length s <= n)%nat -> last_chars n s = s.
Proof.
  intros H. unfold last_chars.
  replace (String.length s - n)%nat with 0%nat by lia. apply substring_short. exact H.
Qed.

(** X6: [make_cookie_options] chooses the cross-site attributes for every
    host that ends with [amazonaws.com], whatever comes before (no dot is
    required), and [Domain=localhost] for every host shorter than that
    suffix; it raises [KeyError] when the event has no headers or no [host]
    header. *)
Theorem make_cookie_options_by_host ev :
  (forall h p, headers ev = Some h -> h !! "host" = Some (p +:+ "amazonaws.com") ->
     make_cookie_options ev = ok "Domain=amazonaws.com; SameSite=None; Secure; ")
  /\ (forall h host, headers ev = Some h -> h !! "host" = Some host ->
        (String.length host < 13)%nat ->
        make_cookie_options ev = ok "Domain=localhost; ")
  /\ (headers ev = None -> make_cookie_options ev = err (KeyError "headers"))
  /\ (forall h, headers ev = Some h -> h !! "host" = None ->
        make_cookie_options ev = err (KeyError "host")).
Proof.
  unfold make_cookie_options, map_entry. refine (conj _ (conj _ (conj _ _))).
  - intros h p -> Hh. cbn [event_entry rbind]. rewrite Hh. cbn [rbind].
    rewrite (last_chars_append p "amazonaws.com"
             : last_chars 13 (p +:+ "amazonaws.com") = "amazonaws.com").
    reflexivity.
  - intros h host -> Hh Hlen. cbn [event_entry rbind]. rewrite Hh. cbn [rbind].
    rewrite last_chars_short by lia.
    destruct (String.eqb_spec host "amazonaws.com") as [->|_]; [simpl in Hlen; lia|].
    reflexivity.
  - intros ->. reflexivity.
  - intros h -> Hh. cbn [event_entry rbind]. rewrite Hh. reflexivity.
Qed.

Lemma make_cookie_options_by_host_witness :
  make_cookie_options Sample.request = ok "Domain=amazonaws.com; SameSite=None; Secure; ".
Proof.
  destruct (make_cookie_options_by_host Sample.request) as (H & _).
  apply (H {[ "origin" := "none"; "host" := "x.amazonaws.com" ]} "x."); [reflexivity|].
  vm_compute. reflexivity.
Defined.


(** ** The OAuth flow *)

Section OAuth.

Context {S : Type}.
Variable Cfg : Config.
Variable R : outside S.






(** X9: [callback] reads the code, the origin and the host before it
    exchanges anything: when one of them is missing it raises the
    [KeyError] of the lookup and has no effect at all. *)
Theorem callback_missing_input ev ctx (w : world S) :
  (forall e, query ev "code" = err e -> callback Cfg R ev ctx w = (Raise e, w))
  /\ (forall code e, query ev "code" = ok code -> make_redirect_url ev = err e ->
        callback Cfg R ev ctx w = (Raise e, w))
  /\ (forall code redirect e,
        query ev "code" = ok code -> make_redirect_url ev = ok redirect ->
        make_cookie_options ev = err e ->
        callback Cfg R ev ctx w = (Raise e, w))
  /\ (queryStringParameters ev = None ->
        query ev "code" = err (KeyError "queryStringParameters"))
  /\ (forall q, queryStringParameters ev = Some q -> q !! "code" = None ->
        query ev "code" = err (KeyError "code")).
Proof.
  refine (conj _ (conj _ (conj _ (conj _ _)))).
  - intros e Hq. unfold callback.
    change (rbind (event_entry "queryStringParameters" (queryStringParameters ev))
              (fun q => map_entry q "code")) with (query ev "code").
    rewrite (bind_lift_err _ _ _ _ Hq). reflexivity.
  - intros code e Hq Hr. unfold callback.
    change (rbind (event_entry "queryStringParameters" (queryStringParameters ev))
              (fun q => map_entry q "code")) with (query ev "code").
    rewrite (bind_lift_ok _ _ _ _ Hq), (bind_lift_err _ _ _ _ Hr). reflexivity.
  - intros code redirect e Hq Hr Ho. unfold callback.
    change (rbind (event_entry "queryStringParameters" (queryStringParameters ev))
              (fun q => map_entry q "code")) with (query ev "code").
    rewrite (bind_lift_ok _ _ _ _ Hq), (bind_lift_ok _ _ _ _ Hr),
      (bind_lift_err _ _ _ _ Ho). reflexivity.
  - intros H. unfold query. rewrite H. reflexivity.
  - intros q H Hc. unfold query, map_entry. rewrite H. simpl. rewrite Hc. reflexivity.
Qed.

(** X10: when the token exchange of [callback] raises, whatever the
    exception, [callback] raises it too: the exchange is the only effect,
    no cookie is drawn and nothing is stored. *)
Theorem callback_exchange_fails ev ctx (w : world S) code redirect opts e s1 :
  query ev "code" = ok code ->
  make_redirect_url ev = ok redirect ->
  make_cookie_options ev = ok opts ->
  api R (Mastodon.log_in code redirect scopes_requested) (config_mastodon Cfg) (ext w)
    = (err e, s1) ->
  callback Cfg R ev ctx w
  = (Raise e,
     Build_world (db w) s1
       (log w ++ [Remote (config_mastodon Cfg)
                    (Mastodon.log_in code redirect scopes_requested)])).
Proof.
  intros Hq Hr Ho Hl. unfold callback.
  change (rbind (event_entry "queryStringParameters" (queryStringParameters ev))
            (fun q => map_entry q "code")) with (query ev "code").
  rewrite (bind_lift_ok _ _ _ _ Hq), (bind_lift_ok _ _ _ _ Hr), (bind_lift_ok _ _ _ _ Ho).
  rewrite (bind_Raise _ _ _ _ _ (remote_run R _ _ w _ _ Hl)). reflexivity.
Qed.

(** X11: a mutation handler whose request lacks one of its identifiers
    raises the [KeyError] of the lookup after the session lookup and
    before any call of the remote API. *)
Theorem mutation_missing_identifier ev ctx (w : world S) c :
  carries ev c ->
  (forall e, query ev "list_name" = err e ->
     create_list Cfg R ev ctx w = (Raise e, logged w [DbGet c]))
  /\ (forall e, query ev "list_id" = err e ->
     delete_list Cfg R ev ctx w = (Raise e, logged w [DbGet c])
     /\ add_to_list Cfg R ev ctx w = (Raise e, logged w [DbGet c])
     /\ remove_from_list Cfg R ev ctx w = (Raise e, logged w [DbGet c]))
  /\ (forall lid e, query ev "list_id" = ok lid -> query ev "account_id" = err e ->
     add_to_list Cfg R ev ctx w = (Raise e, logged w [DbGet c])
     /\ remove_from_list Cfg R ev ctx w = (Raise e, logged w [DbGet c])).
Proof.
  intros Hc.
  rewrite create_list_shape, delete_list_shape, add_to_list_shape, remove_from_list_shape.
  rewrite !(with_session_cookie Cfg ev _ w c Hc).
  refine (conj _ (conj _ _)).
  - intros e Hq. rewrite (bind_lift_err _ _ _ _ Hq). reflexivity.
  - intros e Hq. rewrite !(bind_lift_err _ _ _ _ Hq). repeat split.
  - intros lid e Hq Hq'. rewrite !(bind_lift_ok _ _ _ _ Hq).
    rewrite !(bind_lift_err _ _ _ _ Hq'). split; reflexivity.
Qed.

End OAuth.

Lemma sample_request_without_query_carries :
  carries Sample.request_without_query Sample.the_cookie.
Proof.
  exists ["list-manager-cookie=" +:+ Sample.the_cookie],
         {[ session_cookie := Sample.the_cookie ]}.
  repeat split; vm_compute; reflexivity.
Qed.



Lemma callback_missing_input_witness :
  callback Sample.cfg Sample.serving Sample.request_without_query tt Sample.world0
  = (Raise (KeyError "queryStringParameters"), Sample.world0).
Proof.
  destruct (callback_missing_input Sample.cfg Sample.serving Sample.request_without_query tt
              Sample.world0) as (H & _ & _ & Hq & _).
  apply H. apply Hq. reflexivity.
Defined.

Lemma callback_exchange_fails_witness :
  fst (callback Sample.cfg Sample.offline Sample.request tt Sample.world0)
    = Raise MastodonNetworkError
  /\ db (snd (callback Sample.cfg Sample.offline Sample.request tt Sample.world0))
     = Sample.table.
Proof.
  destruct sample_callback_inputs as (Hq & Hr & Ho).
  rewrite (callback_exchange_fails Sample.cfg Sample.offline Sample.request tt
             Sample.world0 _ _ _ MastodonNetworkError tt Hq Hr Ho eq_refl).
  split; reflexivity.
Defined.

Lemma mutation_missing_identifier_witness :
  create_list Sample.cfg Sample.serving Sample.request_without_query tt Sample.world0
  = (Raise (KeyError "queryStringParameters"),
     logged Sample.world0 [DbGet Sample.the_cookie]).
Proof.
  destruct (mutation_missing_identifier Sample.cfg Sample.serving
              Sample.request_without_query tt Sample.world0 Sample.the_cookie
              sample_request_without_query_carries) as (H & _).
  apply H. reflexivity.
Defined.

(** ** Exceptions, budget and non-termination of [get_all] *)

Section Turns.

Context {W A : Type}.
Variable func : A -> option value -> M W page.
Variable args : A.

(** A turn of the loop whose fetch raises. *)
Lemma get_all_loop_raise fuel res p c e (w w' : W) :
  next_max_id p = ok c ->
  func args (Some c) w = (Raise e, w') ->
  get_all_loop (Datatypes.S fuel) func args res p w
  = (if is_AttributeError e then Ok (res ++ items p) else Raise e, w').
Proof.
  intros Hc Hf. simpl. unfold bind at 1, try_except.
  rewrite (bind_lift_ok _ _ _ _ Hc). rewrite (bind_Raise _ _ _ _ _ Hf).
  destruct (is_AttributeError e); reflexivity.
Qed.

(** A turn of the loop on a page whose [_pagination_next] has no
    [max_id]. *)
Lemma get_all_loop_no_max_id fuel res p d (w : W) :
  pagination_next p = Some d -> dict_get d "max_id" = None ->
  get_all_loop (Datatypes.S fuel) func args res p w = (Raise (KeyError "max_id"), w).
Proof.
  intros Hp Hd. simpl. unfold bind at 1, try_except.
  assert (Hn : next_max_id p = err (KeyError "max_id"))
    by (unfold next_max_id; rewrite Hp, Hd; reflexivity).
  rewrite (bind_lift_err _ _ _ _ Hn). reflexivity.
Qed.

Lemma fetched_loop max_id w ps max_id' w' :
  fetched func args max_id w ps max_id' w' ->
  forall p0 c0 res n,
    next_max_id p0 = ok c0 -> max_id = Some c0 ->
    exists plast c front,
      max_id' = Some c /\ next_max_id plast = ok c
      /\ p0 :: ps = front ++ [plast]
      /\ get_all_loop (length ps + n) func args res p0 w
         = get_all_loop n func args (res ++ concat (map items front)) plast w'.
Proof.
  induction 1 as [max_id w | max_id w p c w1 ps max_id' w' Hf Hc Hrest IH];
    intros p0 c0 res n Hc0 ->.
  - exists p0, c0, []. repeat split; try assumption; try reflexivity.
    simpl. rewrite app_nil_r. reflexivity.
  - destruct (IH p c (res ++ items p0) n Hc eq_refl)
      as (plast & c' & front & Hm & Hl & Hfront & Hloop).
    exists plast, c', (p0 :: front). repeat split; try assumption.
    + rewrite Hfront. reflexivity.
    + simpl length. simpl Nat.add.
      rewrite (get_all_loop_next args func _ res p0 c0 p w w1 Hc0 Hf).
      rewrite Hloop. simpl. rewrite <- app_assoc. reflexivity.
Qed.

Lemma concat_items_snoc (front : list page) plast :
  concat (map items (front ++ [plast])) = concat (map items front) ++ items plast.
Proof. rewrite map_app, concat_app. simpl. rewrite app_nil_r. reflexivity. Qed.

End Turns.

(** X12: how [get_all] treats exceptions.  An exception of the first call
    goes through, an [AttributeError] included.  After pages have been
    fetched, an [AttributeError] raised by the fetch itself ends the loop
    like a missing cursor and the items fetched so far are returned, while
    any other exception goes through.  A page whose [_pagination_next] has
    no [max_id] raises [KeyError]. *)
Theorem get_all_exceptions {W A} (func : A -> option value -> M W page) (args : A) :
  (forall fuel w e w',
     func args None w = (Raise e, w') ->
     get_all fuel func args w = (Raise e, w'))
  /\ (forall fuel w p ps c w1 e w2,
        fetched func args None w (p :: ps) (Some c) w1 ->
        func args (Some c) w1 = (Raise e, w2) ->
        (length (p :: ps) <= fuel)%nat ->
        get_all fuel func args w
        = (if is_AttributeError e then Ok (concat (map items (p :: ps))) else Raise e, w2))
  /\ (forall fuel w ps max_id w1 p d w2,
        fetched func args None w ps max_id w1 ->
        func args max_id w1 = (Ok p, w2) ->
        pagination_next p = Some d -> dict_get d "max_id" = None ->
        (length ps < fuel)%nat ->
        get_all fuel func args w = (Raise (KeyError "max_id"), w2)).
Proof.
  refine (conj _ (conj _ _)).
  - intros fuel w e w' Hf. unfold get_all. rewrite (bind_Raise _ _ _ _ _ Hf). reflexivity.
  - intros fuel w p ps c w1 e w2 Hfe Hf Hle.
    inversion Hfe as [|? ? ? c1 wa ? ? ? Hp Hc1 Hrest]; subst.
    unfold get_all. rewrite (bind_Ok _ _ _ _ _ Hp).
    simpl in Hle.
    assert (Hk : exists k, fuel = (length ps + Datatypes.S k)%nat)
      by (exists (fuel - length ps - 1)%nat; lia).
    destruct Hk as [k ->].
    destruct (fetched_loop func args _ _ _ _ _ Hrest p c1 [] (Datatypes.S k) Hc1 eq_refl)
      as (plast & c2 & front & Hm & Hl & Hfront & Hloop).
    injection Hm as Hm. subst c2.
    rewrite Hloop. rewrite (get_all_loop_raise func args k _ plast c e w1 w2 Hl Hf).
    rewrite Hfront, concat_items_snoc. reflexivity.
  - intros fuel w ps max_id w1 p d w2 Hfe Hf Hp Hd Hlt.
    unfold get_all.
    inversion Hfe as [|? ? p1 c1 wa ps' ? ? Hp1 Hc1 Hrest]; subst.
    + rewrite (bind_Ok _ _ _ _ _ Hf).
      destruct fuel as [|fuel]; [simpl in Hlt; lia|].
      apply (get_all_loop_no_max_id func args fuel [] p d w2 Hp Hd).
    + rewrite (bind_Ok _ _ _ _ _ Hp1). simpl in Hlt.
      assert (Hk : exists k, fuel = (length ps' + Datatypes.S (Datatypes.S k))%nat)
        by (exists (fuel - length ps' - 2)%nat; lia).
      destruct Hk as [k ->].
      destruct (fetched_loop func args _ _ _ _ _ Hrest p1 c1 []
                  (Datatypes.S (Datatypes.S k)) Hc1 eq_refl)
        as (plast & c2 & front & -> & Hl & Hfront & Hloop).
      rewrite Hloop.
      rewrite (get_all_loop_next args func _ _ plast c2 p w1 w2 Hl Hf).
      apply (get_all_loop_no_max_id func args k _ p d w2 Hp Hd).
Qed.

Lemma get_all_loop_diverges {W A} (func : A -> option value -> M W page) (args : A) :
  (forall max_id w, exists p c w',
      func args max_id w = (Ok p, w') /\ next_max_id p = ok c) ->
  forall fuel res p c w,
    next_max_id p = ok c ->
    fst (get_all_loop fuel func args res p w) = Diverge.
Proof.
  intros Hmore fuel. induction fuel as [|fuel IH]; intros res p c w Hc; [reflexivity|].
  destruct (Hmore (Some c) w) as (p' & c' & w' & Hf & Hc').
  rewrite (get_all_loop_next args func fuel res p c p' w w' Hc Hf).
  apply (IH _ p' c' w' Hc').
Qed.

(** X13: against a fetch that returns a page with a cursor at every call,
    [get_all] does not return: whatever the budget of turns, the run is
    still in the loop when the budget is spent. *)
Theorem get_all_never_returns {W A} (func : A -> option value -> M W page) (args : A) :
  (forall max_id w, exists p c w',
      func args max_id w = (Ok p, w') /\ next_max_id p = ok c) ->
  forall fuel w, fst (get_all fuel func args w) = Diverge.
Proof.
  intros Hmore fuel w. unfold get_all.
  destruct (Hmore None w) as (p & c & w' & Hf & Hc).
  rewrite (bind_Ok _ _ _ _ _ Hf).
  apply (get_all_loop_diverges func args Hmore fuel [] p c w' Hc).
Qed.

Lemma get_all_exceptions_witness :
  get_all 1 stub tt [Sample.p1] = (Raise StopIteration, []).
Proof.
  destruct (get_all_exceptions (@stub unit) tt) as (_ & H & _).
  refine (H 1%nat [Sample.p1] Sample.p1 [] (VInt 10) [] StopIteration [] _ eq_refl (le_n 1)).
  eapply fetched_cons; [reflexivity | reflexivity | apply fetched_nil].
Defined.

Lemma get_all_never_returns_witness :
  fst (get_all 1000 Sample.endless tt tt) = Diverge.
Proof.
  apply get_all_never_returns. intros max_id w.
  exists Sample.p1, (VInt 10), w. split; reflexivity.
Defined.

(** ** Failures of [info] *)

Section InfoFailures.

Context {S : Type}.
Variable Cfg : Config.
Variable R : outside S.

(** X15: when the "who am I" call of [info] raises, an illegal-argument
    or internal-server error gives 500 with body [ERROR], an unauthorized
    error gives 403, and every other exception, a plain API error or a
    not-found error included, goes through uncaught; in each case no
    further call is made. *)
Theorem info_me_raises fuel ev ctx (w : world S) c e s :
  carries ev c ->
  api R Mastodon.me (session_client Cfg (db w) c) (ext w) = (err e, s) ->
  info Cfg R fuel ev ctx w
  = (match e with
     | MastodonIllegalArgumentError | MastodonInternalServerError =>
         Ok (VDict [("statusCode", VInt 500); ("body", VStr "ERROR")])
     | MastodonUnauthorizedError =>
         Ok (VDict [("statusCode", VInt 403);
                    ("body", VStr (json_dumps (VDict [("status", VStr "no_cookie")])))])
     | _ => Raise e
     end,
     moved w s [DbGet c; Remote (session_client Cfg (db w) c) Mastodon.me]).
Proof.
  intros Hc Hme. rewrite (info_early Cfg R fuel ev ctx w c e s Hc Hme).
  destruct e; reflexivity.
Qed.

Lemma info_after_me fuel ev ctx (w : world S) c me_ s :
  carries ev c ->
  api R Mastodon.me (session_client Cfg (db w) c) (ext w) = (ok me_, s) ->
  info Cfg R fuel ev ctx w
  = info_body R fuel c (session_client Cfg (db w) c) me_
      (moved w s [DbGet c; Remote (session_client Cfg (db w) c) Mastodon.me]).
Proof.
  intros Hc Hme. destruct (carries_default ev c Hc) as (jar & Hp & Hj).
  unfold info. rewrite (bind_lift_ok _ _ _ _ Hp). rewrite Hj.
  unfold bind at 1, try_except.
  rewrite (bind_Ok _ _ _ _ _ (get_mastodon_run Cfg c w)).
  assert (Hr := remote_run R _ _ (logged w [DbGet c]) _ _ Hme).
  rewrite (bind_Ok _ _ _ _ _ Hr). rewrite moved_logged. reflexivity.
Qed.

(** X16: the status mapping of [info] covers its first call only.  Once
    "who am I" has answered, an exception of the first fetch of the
    followed accounts, or of the fetch of the lists, goes through
    uncaught, an unauthorized error included, and aborts the whole
    aggregation. *)
Theorem info_later_call_raises fuel ev ctx (w : world S) c me_ me_id s :
  carries ev c ->
  api R Mastodon.me (session_client Cfg (db w) c) (ext w) = (ok me_, s) ->
  subscript me_ "id" = ok me_id ->
  let m := session_client Cfg (db w) c in
  let w1 := moved w s [DbGet c; Remote m Mastodon.me] in
  (forall e s2,
     api R (Mastodon.account_following me_id None) m s = (err e, s2) ->
     info Cfg R fuel ev ctx w
     = (Raise e, moved w1 s2 [Remote m (Mastodon.account_following me_id None)]))
  /\ (forall F w2 e s3,
        get_all fuel (fun id max_id => remote R m (Mastodon.account_following id max_id))
          me_id w1 = (Ok F, w2) ->
        Forall (fun x => is_account x = true) F ->
        api R Mastodon.lists m (ext w2) = (err e, s3) ->
        info Cfg R fuel ev ctx w = (Raise e, moved w2 s3 [Remote m Mastodon.lists])).
Proof.
  intros Hc Hme Hid m w1. rewrite (info_after_me fuel ev ctx w c me_ s Hc Hme).
  fold m. fold w1. unfold info_body. rewrite (bind_lift_ok _ _ _ _ Hid). split.
  - intros e s2 Ha.
    assert (Hr := remote_run R m _ w1 _ _ Ha).
    unfold bind at 1, get_all. rewrite (bind_Raise _ _ _ _ _ Hr). reflexivity.
  - intros F w2 e s3 Hget HF Ha.
    rewrite (bind_Ok _ _ _ _ _ Hget).
    assert (HFk : Forall (fun x => is_Some (account_key x)) F).
    { eapply Forall_impl; [exact HF|]. intros x. apply is_account_key. }
    rewrite (bind_lift_ok _ _ _ _ (init_lists_run F HFk)).
    destruct (make_followermap_run (imap (fun _ x => with_lists x []) F) 0 ∅)
      as (fm & Hfm & _).
    { rewrite Forall_lookup. intros i y Hy.
      rewrite list_lookup_imap in Hy. rewrite Forall_lookup in HFk.
      destruct (F !! i) as [x|] eqn:Hx; [|discriminate]. injection Hy as <-.
      rewrite account_key_with_lists. eapply HFk. exact Hx. }
    rewrite (bind_lift_ok _ _ _ _ Hfm).
    rewrite (bind_Raise _ _ _ _ _ (remote_run R m _ w2 _ _ Ha)). reflexivity.
Qed.

End InfoFailures.

Lemma info_me_raises_witness :
  fst (info Sample.cfg Sample.offline 1 Sample.request tt Sample.world0)
  = Raise MastodonNetworkError.
Proof.
  rewrite (info_me_raises Sample.cfg Sample.offline 1%nat Sample.request tt Sample.world0
             Sample.the_cookie MastodonNetworkError tt sample_request_carries eq_refl).
  reflexivity.
Defined.

Lemma info_later_call_raises_witness :
  fst (info Sample.cfg Sample.expiring 1 Sample.request tt Sample.world0)
  = Raise MastodonUnauthorizedError.
Proof.
  destruct (info_later_call_raises Sample.cfg Sample.expiring 1%nat Sample.request tt
              Sample.world0 Sample.the_cookie (Sample.mock_userdict 1 "me") (VInt 1) tt
              sample_request_carries eq_refl eq_refl) as [H _].
  rewrite (H MastodonUnauthorizedError tt eq_refl). reflexivity.
Defined.

(** ** Followers with equal ids, and the order of the memberships *)

Lemma last_with_key_latest F : forall i0 k found j',
  last_with_key F i0 k found = Some j' ->
  forall j x, F !! j = Some x -> account_key x = Some k -> (i0 + j <= j')%nat.
Proof.
  induction F as [|y F IH]; intros i0 k found j' H j x Hj Hk; [discriminate Hj|].
  simpl in H. destruct j as [|j]; simpl in Hj.
  - injection Hj as ->. rewrite decide_True in H by exact Hk.
    destruct (last_with_key_bounds F _ _ _ _ H) as [[= <-] | (z & _ & Hle & _)]; lia.
  - pose proof (IH _ _ _ _ H j x Hj Hk). lia.
Qed.

Lemma owner_latest F acct i j y :
  owner F acct = Some i -> F !! j = Some y -> account_key y = account_key acct ->
  (j <= i)%nat.
Proof.
  unfold owner. destruct (account_key acct) as [k|] eqn:Hk; [|discriminate].
  intros H Hj Hy. exact (last_with_key_latest F 0 k None i H j y Hj Hy).
Qed.

Lemma memberships_nil F i ls membs :
  (forall acct, owner F acct <> Some i) -> memberships F i ls membs = [].
Proof.
  intros H. destruct (memberships F i ls membs) as [|lid l] eqn:E; [reflexivity|].
  assert (Hin : lid ∈ memberships F i ls membs) by (rewrite E; left).
  apply elem_of_memberships in Hin as (j & l' & accts & acct & _ & _ & _ & _ & Ho).
  destruct (H acct Ho).
Qed.

Lemma list_ids_where_ext (f g : value -> bool) ls membs :
  Forall (Forall (fun a => f a = g a)) membs ->
  list_ids_where f ls membs = list_ids_where g ls membs.
Proof.
  unfold list_ids_where. revert membs.
  induction ls as [|l ls IH]; intros [|accts membs] H; try reflexivity.
  apply Forall_cons in H as [Ha H]. simpl. rewrite (IH membs H). f_equal.
  destruct (subscript l "id") as [lid|]; [|reflexivity].
  induction Ha as [|a accts Hfa _ IHa]; [reflexivity|].
  simpl. rewrite Hfa, IHa. reflexivity.
Qed.

Section Memberships.

Context {S : Type}.
Variable Cfg : Config.
Variable R : outside S.

(** X17: when two followed accounts have the same id, the list ids go to
    the later one alone: the entry emitted for the earlier one has an empty
    [lists], whatever lists the account is a member of. *)
Theorem info_equal_ids fuel ev ctx (w : world S) cookie me_ F ls membs w'
    username acct display_name i j x y :
  served Cfg R fuel ev w cookie me_ F ls membs w' ->
  Forall (fun x => is_account x = true) F ->
  Forall (Forall (fun a => is_member a = true)) membs ->
  subscript me_ "username" = ok username ->
  subscript me_ "acct" = ok acct ->
  subscript me_ "display_name" = ok display_name ->
  F !! i = Some x -> F !! j = Some y -> (i < j)%nat ->
  account_key x = account_key y ->
  exists outs summary o,
    info Cfg R fuel ev ctx w
    = (Ok (VStr (json_dumps
                   (VDict [("lists", VList ls); ("followers", VList outs);
                           ("me", summary)]))),
       logged w' [DbGet cookie])
    /\ outs !! i = Some o
    /\ subscript o "lists" = ok (VList []).
Proof.
  intros Hs HF Hm Hun Hac Hdn Hi Hj Hlt Hxy.
  destruct (info_run Cfg R fuel ev ctx w cookie me_ F ls membs w' _ _ _ Hs HF Hm Hun Hac Hdn)
    as (outs & Hrun & _ & Hlook).
  destruct (Hlook i x Hi) as (o & Ho & He).
  exists outs. eexists. exists o. split; [exact Hrun|]. split; [exact Ho|].
  rewrite memberships_nil in He.
  - destruct (emitted_fields _ _ _ He) as (? & ? & ? & ? & ? & ? & _ & _ & _ & _ & _ & _ & ->).
    reflexivity.
  - intros a Ho'.
    destruct (owner_bounds F a i Ho') as (x' & Hx' & Hk).
    rewrite Hi in Hx'. injection Hx' as <-.
    assert (Hyk : account_key y = account_key a) by congruence.
    pose proof (owner_latest F a i j y Ho' Hj Hyk). lia.
Qed.

(** X18: for followed accounts with distinct ids, the [lists] emitted for
    an account are the ids of the lists in the order the lists were
    returned, each as many times as the account occurs among the members of
    the list. *)
Theorem info_memberships_in_order fuel ev ctx (w : world S) cookie me_ F ls membs w'
    username acct display_name :
  served Cfg R fuel ev w cookie me_ F ls membs w' ->
  Forall (fun x => is_account x = true) F ->
  NoDup (account_key <$> F) ->
  Forall (Forall (fun a => is_member a = true)) membs ->
  subscript me_ "username" = ok username ->
  subscript me_ "acct" = ok acct ->
  subscript me_ "display_name" = ok display_name ->
  exists outs summary,
    info Cfg R fuel ev ctx w
    = (Ok (VStr (json_dumps
                   (VDict [("lists", VList ls); ("followers", VList outs);
                           ("me", summary)]))),
       logged w' [DbGet cookie])
    /\ forall i x, F !! i = Some x ->
         exists o,
           outs !! i = Some o
           /\ subscript o "lists"
              = ok (VList (list_ids_where
                             (fun a => bool_decide (account_key a = account_key x))
                             ls membs)).
Proof.
  intros Hs HF Hnd Hm Hun Hac Hdn.
  destruct (info_run Cfg R fuel ev ctx w cookie me_ F ls membs w' _ _ _ Hs HF Hm Hun Hac Hdn)
    as (outs & Hrun & _ & Hlook).
  exists outs. eexists. split; [exact Hrun|].
  intros i x Hi. destruct (Hlook i x Hi) as (o & Ho & He).
  exists o. split; [exact Ho|].
  destruct (emitted_fields _ _ _ He) as (? & ? & ? & ? & ? & ? & _ & _ & _ & _ & _ & _ & ->).
  simpl. f_equal. f_equal. unfold memberships. apply list_ids_where_ext.
  rewrite Forall_lookup in HF. pose proof (is_account_key x (HF i x Hi)) as Hk.
  apply Forall_forall. intros accts _. apply Forall_forall. intros a _.
  apply bool_decide_ext. exact (owner_NoDup F a i x Hnd Hi Hk).
Qed.

End Memberships.

Lemma sample_served_repeating :
  served Sample.cfg Sample.repeating 1 Sample.request Sample.world0 Sample.the_cookie
    (Sample.mock_userdict 1 "me") [Sample.A; Sample.A] [Sample.L1]
    [[Sample.A; Sample.A]]
    {| db := Sample.table; ext := tt;
       log := [DbGet Sample.the_cookie;
               Remote Sample.client0 Mastodon.me;
               Remote Sample.client0 (Mastodon.account_following (VInt 1) None);
               Remote Sample.client0 Mastodon.lists;
               Remote Sample.client0 (Mastodon.list_accounts (VStr "L1") None)] |}.
Proof.
  split; [exact sample_request_carries|].
  eexists _, _, _, _. repeat split; vm_compute; reflexivity.
Qed.

Lemma info_equal_ids_witness :
  exists outs summary o,
    fst (info Sample.cfg Sample.repeating 1 Sample.request tt Sample.world0)
    = Ok (VStr (json_dumps
                  (VDict [("lists", VList [Sample.L1]); ("followers", VList outs);
                          ("me", summary)])))
    /\ outs !! 0%nat = Some o
    /\ subscript o "lists" = ok (VList []).
Proof.
  destruct (info_equal_ids Sample.cfg Sample.repeating 1%nat Sample.request tt Sample.world0
              Sample.the_cookie _ _ _ _ _ (VStr "me") (VStr "act-me") (VStr "dn-me")
              0%nat 1%nat Sample.A Sample.A sample_served_repeating)
    as (outs & summary & o & Hrun & Ho & Hl); try reflexivity.
  - repeat constructor.
  - repeat constructor.
  - lia.
  - exists outs, summary, o. rewrite Hrun. split; [reflexivity|]. split; assumption.
Defined.

Lemma info_memberships_in_order_witness :
  exists outs summary o,
    fst (info Sample.cfg Sample.serving 2 Sample.request tt Sample.world0)
    = Ok (VStr (json_dumps
                  (VDict [("lists", VList [Sample.L1; Sample.L2]);
                          ("followers", VList outs); ("me", summary)])))
    /\ outs !! 1%nat = Some o
    /\ subscript o "lists" = ok (VList [VStr "L2"]).
Proof.
  destruct sample_accounts as (HF & Hnd & Hm).
  destruct (info_memberships_in_order Sample.cfg Sample.serving 2%nat Sample.request tt
              Sample.world0 Sample.the_cookie _ _ _ _ _ (VStr "me") (VStr "act-me")
              (VStr "dn-me") sample_served HF Hnd Hm eq_refl eq_refl eq_refl)
    as (outs & summary & Hrun & Hlook).
  destruct (Hlook 1%nat Sample.B eq_refl) as (o & Ho & Hl).
  exists outs, summary, o. rewrite Hrun. split; [reflexivity|]. split; [exact Ho|].
  rewrite Hl. vm_compute. reflexivity.
Defined.

(** ** The answers of the handlers *)

Section Answers.

Context {S : Type}.
Variable Cfg : Config.
Variable R : outside S.

Lemma info_body_answer fuel cookie m me_ (w : world S) v w' :
  info_body R fuel cookie m me_ w = (Ok v, w') -> exists s, v = VStr s.
Proof.
  unfold info_body. intros H.
  repeat (apply bind_inv_Ok in H as (? & ? & _ & H)).
  injection H as <- _. eauto.
Qed.

(** X19: whenever [info] answers, the answer is the 403 response, the
    500 response, or a bare string, the serialised output: on success it
    is not a response with a status code, unlike the answers of the other
    handlers. *)
Theorem info_answers fuel ev ctx (w : world S) v w' :
  info Cfg R fuel ev ctx w = (Ok v, w') ->
  v = VDict [("statusCode", VInt 403);
             ("body", VStr (json_dumps (VDict [("status", VStr "no_cookie")])))]
  \/ v = VDict [("statusCode", VInt 500); ("body", VStr "ERROR")]
  \/ exists s, v = VStr s.
Proof.
  unfold info. intros H.
  apply bind_inv_Ok in H as (jar & w1 & _ & H).
  destruct (jar !! session_cookie) as [c|].
  - apply bind_inv_Ok in H as (r & w2 & Htry & H).
    destruct r as [[m me_]|early].
    + right. right. exact (info_body_answer fuel c m me_ w2 v w' H).
    + injection H as <- _. unfold try_except in Htry.
      destruct (bind (get_mastodon Cfg c) _ w1) as [[a|e|] w3] eqn:E.
      * apply bind_inv_Ok in E as (? & ? & _ & E).
        apply bind_inv_Ok in E as (? & ? & _ & E).
        injection E as <- _. discriminate Htry.
      * destruct (is_MastodonIllegalArgumentError e);
          [injection Htry as <- _; right; left; reflexivity|].
        destruct (is_MastodonInternalServerError e);
          [injection Htry as <- _; right; left; reflexivity|].
        destruct (is_MastodonUnauthorizedError e);
          [injection Htry as <- _; left; reflexivity | discriminate Htry].
      * discriminate Htry.
  - injection H as <- _. left. reflexivity.
Qed.

Lemma with_session_answers ev (k : Mastodon.client -> M (world S) value) (P : value -> Prop)
    (w : world S) v w' :
  P no_cookie_response -> P error_500 ->
  (forall m w1 v w', k m w1 = (Ok v, w') -> P v) ->
  with_session Cfg ev k w = (Ok v, w') -> P v.
Proof.
  intros Hno H500 Hk. unfold with_session. intros H.
  apply bind_inv_Ok in H as (jar & w1 & _ & H).
  destruct (jar !! session_cookie) as [c|].
  - apply bind_inv_Ok in H as (r & w2 & Htry & H).
    destruct r as [m|early]; [exact (Hk m w2 v w' H)|].
    injection H as <- _. unfold try_except in Htry.
    destruct (bind (get_mastodon Cfg c) _ w1) as [[a|e|] w3] eqn:E.
    + apply bind_inv_Ok in E as (? & ? & _ & E). injection E as <- _. discriminate Htry.
    + destruct (is_MastodonIllegalArgumentError e); [injection Htry as <- _; exact H500|].
      destruct (is_MastodonInternalServerError e);
        [injection Htry as <- _; exact H500 | discriminate Htry].
    + discriminate Htry.
  - injection H as <- _. exact Hno.
Qed.

Lemma try_mutation_answers m c (w : world S) v w' :
  try_mutation R m c w = (Ok v, w') ->
  v = response "OK" 200 \/ v = response "ERROR" 500.
Proof.
  unfold try_mutation, try_except. intros H.
  destruct (bind (remote R m c) _ w) as [[a|e|] w1] eqn:E.
  - apply bind_inv_Ok in E as (? & ? & _ & E). injection E as <- _.
    injection H as <- _. left. reflexivity.
  - destruct (is_MastodonAPIError e); [|discriminate H].
    injection H as <- _. right. reflexivity.
  - discriminate H.
Qed.

(** X20: whenever a mutation handler answers, the answer is one of three
    responses: 403 with status [no_cookie], 500 with body [ERROR], or 200
    with body [OK]. *)
Theorem mutation_answers ev ctx (w : world S) v w' :
  create_list Cfg R ev ctx w = (Ok v, w')
  \/ delete_list Cfg R ev ctx w = (Ok v, w')
  \/ add_to_list Cfg R ev ctx w = (Ok v, w')
  \/ remove_from_list Cfg R ev ctx w = (Ok v, w') ->
  v = VDict [("statusCode", VInt 403);
             ("body", VStr (json_dumps (VDict [("status", VStr "no_cookie")])))]
  \/ v = VDict [("statusCode", VInt 500); ("body", VStr "ERROR")]
  \/ v = VDict [("statusCode", VInt 200); ("body", VStr "OK")].
Proof.
  rewrite create_list_shape, delete_list_shape, add_to_list_shape, remove_from_list_shape.
  set (P := fun v : value =>
    v = VDict [("statusCode", VInt 403);
               ("body", VStr (json_dumps (VDict [("status", VStr "no_cookie")])))]
    \/ v = VDict [("statusCode", VInt 500); ("body", VStr "ERROR")]
    \/ v = VDict [("statusCode", VInt 200); ("body", VStr "OK")]).
  assert (Hno : P no_cookie_response) by (left; reflexivity).
  assert (H500 : P error_500) by (right; left; reflexivity).
  assert (Htry : forall m c (w1 : world S) v1 w1',
             try_mutation R m c w1 = (Ok v1, w1') -> P v1).
  { intros m c w1 v1 w1' H.
    destruct (try_mutation_answers _ _ _ _ _ H) as [-> | ->];
      [right; right; reflexivity | right; left; reflexivity]. }
  intros [H | [H | [H | H]]]; change (P v).
  all: refine (with_session_answers ev _ P w v w' Hno H500 _ H).
  all: intros m w1 v1 w1' Hk.
  all: repeat (apply bind_inv_Ok in Hk as (? & ? & _ & Hk)).
  all: exact (Htry _ _ _ _ _ Hk).
Qed.

End Answers.

Lemma info_answers_witness :
  exists s,
    fst (info Sample.cfg Sample.serving 2 Sample.request tt Sample.world0) = Ok (VStr s).
Proof.
  destruct (info Sample.cfg Sample.serving 2 Sample.request tt Sample.world0)
    as [[v|e|] w'] eqn:E; try (vm_compute in E; discriminate E).
  destruct (info_answers _ _ _ _ _ _ _ _ E) as [-> | [-> | [s ->]]].
  - vm_compute in E. discriminate E.
  - vm_compute in E. discriminate E.
  - exists s. reflexivity.
Defined.

Lemma mutation_answers_witness :
  response "OK" 200
    = VDict [("statusCode", VInt 403);
             ("body", VStr (json_dumps (VDict [("status", VStr "no_cookie")])))]
  \/ response "OK" 200 = VDict [("statusCode", VInt 500); ("body", VStr "ERROR")]
  \/ response "OK" 200 = VDict [("statusCode", VInt 200); ("body", VStr "OK")].
Proof.
  eapply (mutation_answers Sample.cfg Sample.serving Sample.request tt Sample.world0).
  left. vm_compute. reflexivity.
Defined.

(** ** A cookie without a session *)

Section Anonymous.

Context {S : Type}.
Variable Cfg : Config.
Variable R : outside S.

(** X22: a session cookie that has no entry in the table is not turned
    away by the handlers themselves: the client is built without an access
    token and the call is made all the same, so the answer is the one the
    remote side's reply to that call gives. *)
Theorem cookie_without_session ev ctx (w : world S) c :
  carries ev c ->
  db w !! c = None ->
  let anonymous :=
    {| Mastodon.client_id := client_id Cfg;
       Mastodon.client_secret := client_secret Cfg;
       Mastodon.access_token := None;
       Mastodon.api_base_url := "https://hachyderm.io" |} in
  (forall fuel e s, api R Mastodon.me anonymous (ext w) = (err e, s) ->
     snd (info Cfg R fuel ev ctx w) = moved w s [DbGet c; Remote anonymous Mastodon.me])
  /\ (forall lname a s, query ev "list_name" = ok lname ->
        api R (Mastodon.list_create (VStr lname)) anonymous (ext w) = (a, s) ->
        create_list Cfg R ev ctx w
        = (mutation_answer a,
           moved w s [DbGet c; Remote anonymous (Mastodon.list_create (VStr lname))]))
  /\ (forall lid a s, query ev "list_id" = ok lid ->
        api R (Mastodon.list_delete (VStr lid)) anonymous (ext w) = (a, s) ->
        delete_list Cfg R ev ctx w
        = (mutation_answer a,
           moved w s [DbGet c; Remote anonymous (Mastodon.list_delete (VStr lid))]))
  /\ (forall lid aid a s, query ev "list_id" = ok lid -> query ev "account_id" = ok aid ->
        api R (Mastodon.list_accounts_add (VStr lid) [VStr aid]) anonymous (ext w) = (a, s) ->
        add_to_list Cfg R ev ctx w
        = (mutation_answer a,
           moved w s [DbGet c;
                      Remote anonymous (Mastodon.list_accounts_add (VStr lid) [VStr aid])]))
  /\ (forall lid aid a s, query ev "list_id" = ok lid -> query ev "account_id" = ok aid ->
        api R (Mastodon.list_accounts_delete (VStr lid) [VStr aid]) anonymous (ext w)
          = (a, s) ->
        remove_from_list Cfg R ev ctx w
        = (mutation_answer a,
           moved w s [DbGet c;
                      Remote anonymous
                        (Mastodon.list_accounts_delete (VStr lid) [VStr aid])])).
Proof.
  intros Hc Hdb anonymous.
  assert (Hm : session_client Cfg (db w) c = anonymous)
    by (unfold session_client; rewrite Hdb; reflexivity).
  rewrite <- Hm. refine (conj _ (conj _ (conj _ (conj _ _)))).
  - intros fuel e s Hme. rewrite (info_early Cfg R fuel ev ctx w c e s Hc Hme). reflexivity.
  - intros lname a s Hq Ha. exact (create_list_run Cfg R ev ctx w c _ a s Hc Hq Ha).
  - intros lid a s Hq Ha. exact (delete_list_run Cfg R ev ctx w c _ a s Hc Hq Ha).
  - intros lid aid a s Hq Hq' Ha. exact (add_to_list_run Cfg R ev ctx w c _ _ a s Hc Hq Hq' Ha).
  - intros lid aid a s Hq Hq' Ha.
    exact (remove_from_list_run Cfg R ev ctx w c _ _ a s Hc Hq Hq' Ha).
Qed.

End Anonymous.

Lemma cookie_without_session_witness :
  create_list Sample.cfg Sample.serving Sample.request tt
    {| db := ∅; ext := tt; log := [] |}
  = (Ok (response "OK" 200),
     {| db := ∅; ext := tt;
        log := [DbGet Sample.the_cookie;
                Remote {| Mastodon.client_id := "id";
                          Mastodon.client_secret := "secret";
                          Mastodon.access_token := None;
                          Mastodon.api_base_url := "https://hachyderm.io" |}
                  (Mastodon.list_create (VStr "new"))] |}).
Proof.
  destruct sample_query as (Hn & _).
  destruct (cookie_without_session Sample.cfg Sample.serving Sample.request tt
              {| db := ∅; ext := tt; log := [] |} Sample.the_cookie
              sample_request_carries (lookup_empty _)) as (_ & H & _).
  exact (H "new" (ok tt) tt Hn eq_refl).
Defined.

(** ** Requests whose cookies do not all parse *)

Lemma parse_cookies_unparsed l :
  Exists (fun c => occurrences "=" (first_part c) <> 1%nat) l ->
  parse_cookies l = err ValueError.
Proof.
  intros Hbad. pose proof (parse_cookies_from_outcome l ∅) as H.
  unfold parse_cookies. destruct (parse_cookies_from ∅ l) as [jar|e].
  - exfalso. apply Exists_exists in Hbad as (c & Hin & Hc).
    rewrite Forall_forall in H. apply Hc, cookie_pair_occurrences, H, Hin.
  - destruct H as [-> _]. reflexivity.
Qed.

Section Unparsed.

Context {S : Type}.
Variable Cfg : Config.
Variable R : outside S.

Lemma with_session_unparsed ev k (w : world S) l :
  cookies ev = Some l ->
  Exists (fun c => occurrences "=" (first_part c) <> 1%nat) l ->
  with_session Cfg ev k w = (Raise ValueError, w).
Proof.
  intros H Hbad. unfold with_session. rewrite H. simpl.
  rewrite (bind_lift_err _ _ _ _ (parse_cookies_unparsed l Hbad)). reflexivity.
Qed.

(** C5 (code bug): a request that carries the session cookie does not make
    the mutation handlers reach their call when one of its cookies, any of
    them, has not exactly one [=] before its first [;]: each of the four
    handlers then raises [ValueError] and has no effect at all, no session
    lookup and no remote call.  When the cookies parse and hold the session
    cookie and the identifiers are in the query parameters, each handler
    makes exactly the one corresponding mutation call with those
    identifiers, answers 200 [OK] when it succeeds and 500 [ERROR] when it
    raises an API error. *)
Theorem mutations_one_call ev ctx (w : world S) :
  (forall l,
     cookies ev = Some l ->
     Exists (fun c => occurrences "=" (first_part c) <> 1%nat) l ->
     create_list Cfg R ev ctx w = (Raise ValueError, w)
     /\ delete_list Cfg R ev ctx w = (Raise ValueError, w)
     /\ add_to_list Cfg R ev ctx w = (Raise ValueError, w)
     /\ remove_from_list Cfg R ev ctx w = (Raise ValueError, w))
  /\ (forall c,
        carries ev c ->
        let m := session_client Cfg (db w) c in
        (forall lname, query ev "list_name" = ok lname ->
           one_call R w c m (Mastodon.list_create (VStr lname))
             (create_list Cfg R ev ctx w))
        /\ (forall lid, query ev "list_id" = ok lid ->
           one_call R w c m (Mastodon.list_delete (VStr lid))
             (delete_list Cfg R ev ctx w))
        /\ (forall lid aid,
              query ev "list_id" = ok lid -> query ev "account_id" = ok aid ->
              one_call R w c m (Mastodon.list_accounts_add (VStr lid) [VStr aid])
                (add_to_list Cfg R ev ctx w))
        /\ (forall lid aid,
              query ev "list_id" = ok lid -> query ev "account_id" = ok aid ->
              one_call R w c m (Mastodon.list_accounts_delete (VStr lid) [VStr aid])
                (remove_from_list Cfg R ev ctx w))).
Proof.
  split.
  - intros l Hl Hbad.
    rewrite create_list_shape, delete_list_shape, add_to_list_shape,
      remove_from_list_shape.
    refine (conj _ (conj _ (conj _ _)));
      exact (with_session_unparsed ev _ w l Hl Hbad).
  - intros c Hc. exact (mutation_runs_one_call Cfg R ev ctx w c Hc).
Qed.

(** C9 (code bug): a request that carries a session cookie whose "who am
    I" call would succeed is not acknowledged by [auth] when one of its
    cookies, any of them, has not exactly one [=] before its first [;]:
    [auth] then raises [ValueError] and has no effect at all, no session
    lookup and no call.  When the cookies parse and hold a session cookie
    for which the "who am I" call succeeds, [auth] answers 200 with body
    [{"status": "OK"}]; the only effects are the session lookup, that one
    call and the printed line, so no authorization URL is requested. *)
Theorem auth_already_logged_in ev ctx (w : world S) :
  (forall l,
     cookies ev = Some l ->
     Exists (fun c => occurrences "=" (first_part c) <> 1%nat) l ->
     auth Cfg R ev ctx w = (Raise ValueError, w))
  /\ (forall c me_ s,
        carries ev c ->
        api R Mastodon.me (session_client Cfg (db w) c) (ext w) = (ok me_, s) ->
        let new := [DbGet c; Remote (session_client Cfg (db w) c) Mastodon.me;
                    Printed "Already logged in"] in
        auth Cfg R ev ctx w
        = (Ok (VDict [("statusCode", VInt 200);
                      ("body", VStr (json_dumps (VDict [("status", VStr "OK")])))]),
           moved w s new)
        /\ Forall (fun e => is_auth_request_url e = false) new).
Proof.
  split.
  - intros l Hl Hbad. unfold auth. rewrite Hl. simpl.
    rewrite (bind_lift_err _ _ _ _ (parse_cookies_unparsed l Hbad)). reflexivity.
  - intros c me_ s Hc Hme. exact (auth_logged_in_run Cfg R ev ctx w c me_ s Hc Hme).
Qed.

End Unparsed.

Lemma sample_request_with_prefs :
  cookies Sample.request_with_prefs
    = Some ["list-manager-cookie=" +:+ Sample.the_cookie; "prefs=a=b"]
  /\ Exists (fun c => occurrences "=" (first_part c) <> 1%nat)
       ["list-manager-cookie=" +:+ Sample.the_cookie; "prefs=a=b"].
Proof.
  split; [reflexivity|]. apply Exists_cons_tl, Exists_cons_hd.
  vm_compute. intros [=].
Qed.

Lemma mutations_one_call_witness :
  (create_list Sample.cfg Sample.serving Sample.request_with_prefs tt Sample.world0
     = (Raise ValueError, Sample.world0)
   /\ delete_list Sample.cfg Sample.serving Sample.request_with_prefs tt Sample.world0
     = (Raise ValueError, Sample.world0)
   /\ add_to_list Sample.cfg Sample.serving Sample.request_with_prefs tt Sample.world0
     = (Raise ValueError, Sample.world0)
   /\ remove_from_list Sample.cfg Sample.serving Sample.request_with_prefs tt Sample.world0
     = (Raise ValueError, Sample.world0))
  /\ fst (create_list Sample.cfg Sample.serving Sample.request tt Sample.world0)
     = Ok (VDict [("statusCode", VInt 200); ("body", VStr "OK")])
  /\ fst (add_to_list Sample.cfg Sample.rejecting Sample.request tt Sample.world0)
     = Ok (VDict [("statusCode", VInt 500); ("body", VStr "ERROR")])
  /\ log (snd (add_to_list Sample.cfg Sample.rejecting Sample.request tt Sample.world0))
     = [DbGet Sample.the_cookie;
        Remote Sample.client0 (Mastodon.list_accounts_add (VStr "L1") [VStr "2"])].
Proof.
  destruct sample_query as (Hn & Hl & Ha).
  destruct sample_request_with_prefs as (Hcookies & Hbad).
  destruct (mutations_one_call Sample.cfg Sample.serving Sample.request_with_prefs tt
              Sample.world0) as (Hfail & _).
  destruct (mutations_one_call Sample.cfg Sample.serving Sample.request tt
              Sample.world0) as (_ & Hserving).
  destruct (mutations_one_call Sample.cfg Sample.rejecting Sample.request tt
              Sample.world0) as (_ & Hrejecting).
  destruct (Hserving Sample.the_cookie sample_request_carries) as (H1 & _).
  destruct (Hrejecting Sample.the_cookie sample_request_carries) as (_ & _ & H3 & _).
  destruct (H1 "new" Hn (ok tt) tt eq_refl) as (_ & _ & E1).
  destruct (H3 "L1" "2" Hl Ha (err MastodonUnauthorizedError) tt eq_refl) as (E2 & _ & E3).
  split; [exact (Hfail _ Hcookies Hbad)|].
  split; [exact E1|]. split; [exact E3|]. rewrite E2. reflexivity.
Defined.

Lemma auth_already_logged_in_witness :
  api Sample.serving Mastodon.me
      (session_client Sample.cfg (db Sample.world0) Sample.the_cookie) tt
    = (ok (Sample.mock_userdict 1 "me"), tt)
  /\ auth Sample.cfg Sample.serving Sample.request_with_prefs tt Sample.world0
     = (Raise ValueError, Sample.world0)
  /\ fst (auth Sample.cfg Sample.serving Sample.request tt Sample.world0)
     = Ok (VDict [("statusCode", VInt 200);
                  ("body", VStr (json_dumps (VDict [("status", VStr "OK")])))]).
Proof.
  destruct sample_request_with_prefs as (Hcookies & Hbad).
  destruct (auth_already_logged_in Sample.cfg Sample.serving Sample.request_with_prefs tt
              Sample.world0) as (Hfail & _).
  destruct (auth_already_logged_in Sample.cfg Sample.serving Sample.request tt
              Sample.world0) as (_ & Hok).
  destruct (Hok Sample.the_cookie (Sample.mock_userdict 1 "me") tt
              sample_request_carries eq_refl) as [H _].
  split; [reflexivity|]. split; [exact (Hfail _ Hcookies Hbad)|].
  rewrite H. reflexivity.
Defined.
